(** * Chat relay with a generative-AI assistant: the socket event handlers

    A shallow embedding of the Socket.io handlers of the two server
    variants of the repository:

    - the "Buddy" server (per-socket rolling memory, port 3001), and
    - the plain server (no memory, port 3000).

    Both keep the process-wide [connectedUsers] map; the Buddy server adds
    the [userMemory] map from socket ids to JavaScript arrays.  An array is
    a mutable object that an [async] handler keeps a reference to across
    its [await], so arrays live in a heap and the map stores references.

    The [message] handler is an [async] function: it runs synchronously up
    to [await model.generateContent(prompt)], and its continuation runs in
    a later turn of the event loop, when the promise settles.  The two
    halves are separate definitions, and a scheduler interleaves them with
    the other socket events.

    Besides the handlers, the file embeds the two routes that read the
    registry ([GET /health], [GET /api/users]) and the listeners of the
    React client, which fold the events a connection receives into the
    component's state. *)

From stdpp Require Import base numbers option list strings gmap fin_maps.

(** ** Data *)

(** The value stored in [connectedUsers]: [{ username, joinTime: new Date() }]. *)
Record Participant : Type := mkParticipant {
  username : string;
  joinTime : Z
}.

(** The [role] of a history entry: ['user'] or ['assistant']. *)
Inductive Role : Type :=
  | role_user        (* 'user' *)
  | role_assistant.  (* 'assistant' *)

(** One entry of a [chatHistory] array: [{ role, content }]. *)
Record Turn : Type := mkTurn {
  role : Role;
  content : string
}.

(** The string produced by [d.toISOString()]; it is kept as the instant [d]
    it renders (milliseconds since the epoch). *)
Inductive ISOString : Type := toISOString (d : Z).

(** Payloads of the inbound events. *)
Record UserData : Type := mkUserData { ud_username : string }.
Record MessageData : Type := mkMessageData {
  md_message : string;
  md_username : string
}.
Record TypingData : Type := mkTypingData { isTyping : bool }.

(** Outbound events, one constructor per event name, fields in the order
    of the object literal that is emitted. *)
Inductive OutEvent : Type :=
  | user_joined (username message : string) (timestamp : ISOString)
  | user_message (id : Z) (username message : string)
                 (timestamp : ISOString) (type : string)
  | ai_message (id : Z) (username message : string)
               (timestamp : ISOString) (type : string)
  | user_left (username message : string) (timestamp : ISOString)
  | user_count (count : nat)
  | user_typing (username : string) (isTyping : bool)
  | error (message : string).

(** Who receives an emitted event. *)
Inductive Target : Type :=
  | ToSocket (socket_id : string)   (* socket.emit            *)
  | ToOthers (socket_id : string)   (* socket.broadcast.emit  *)
  | ToAll.                          (* io.emit                *)

Abbreviation Emission := (Target * OutEvent)%type.

#[global] Instance Role_eq_dec : EqDecision Role.
Proof. solve_decision. Defined.
#[global] Instance ISOString_eq_dec : EqDecision ISOString.
Proof. solve_decision. Defined.
#[global] Instance OutEvent_eq_dec : EqDecision OutEvent.
Proof. solve_decision. Defined.
#[global] Instance Target_eq_dec : EqDecision Target.
Proof. solve_decision. Defined.

(** ** Process state *)

(** A reference to a JavaScript array. *)
Abbreviation ref := nat (only parsing).

(** The state the handlers read and write.  [clock] is the sequence of
    values the system clock returns, one per call of [Date.now()] or
    [new Date()], and [ticks] counts the calls made so far. *)
Record Env : Type := mkEnv {
  connectedUsers : gmap string Participant;
  userMemory : gmap string ref;
  arrays : list (list Turn);
  clock : nat → Z;
  ticks : nat
}.

Definition initial (clk : nat → Z) : Env :=
  {| connectedUsers := ∅; userMemory := ∅; arrays := []; clock := clk; ticks := 0 |}.

(** ** The handler monad: state passing plus the list of emitted events *)

Definition M (A : Type) : Type := Env → A * Env * list Emission.

#[global] Instance M_ret : MRet M := λ A a e, (a, e, []).

Definition result {A} (r : A * Env * list Emission) : A := r.1.1.
Definition state_of {A} (r : A * Env * list Emission) : Env := r.1.2.
Definition emitted {A} (r : A * Env * list Emission) : list Emission := r.2.

#[global] Instance M_bind : MBind M := λ A B f m e,
  let '(a, e1, o1) := m e in
  let '(b, e2, o2) := f a e1 in
  (b, e2, o1 ++ o2).

(** *** The clock *)

Definition Date_now : M Z := λ e,
  (clock e (ticks e),
   {| connectedUsers := connectedUsers e; userMemory := userMemory e;
      arrays := arrays e; clock := clock e; ticks := S (ticks e) |}, []).

Definition new_Date : M Z := Date_now.

(** *** Emitting *)

Definition socket_emit (socket_id : string) (ev : OutEvent) : M unit :=
  λ e, (tt, e, [(ToSocket socket_id, ev)]).
Definition socket_broadcast_emit (socket_id : string) (ev : OutEvent) : M unit :=
  λ e, (tt, e, [(ToOthers socket_id, ev)]).
Definition io_emit (ev : OutEvent) : M unit :=
  λ e, (tt, e, [(ToAll, ev)]).

(** *** The [connectedUsers] map *)

Definition set_connectedUsers (m : gmap string Participant) (e : Env) : Env :=
  {| connectedUsers := m; userMemory := userMemory e;
     arrays := arrays e; clock := clock e; ticks := ticks e |}.

Definition connectedUsers_set (k : string) (p : Participant) : M unit :=
  λ e, (tt, set_connectedUsers (<[k := p]> (connectedUsers e)) e, []).
Definition connectedUsers_get (k : string) : M (option Participant) :=
  λ e, (connectedUsers e !! k, e, []).
Definition connectedUsers_delete (k : string) : M unit :=
  λ e, (tt, set_connectedUsers (delete k (connectedUsers e)) e, []).
Definition connectedUsers_size : M nat :=
  λ e, (size (connectedUsers e), e, []).

(** *** The [userMemory] map and the arrays it refers to *)

Definition set_userMemory (m : gmap string ref) (e : Env) : Env :=
  {| connectedUsers := connectedUsers e; userMemory := m;
     arrays := arrays e; clock := clock e; ticks := ticks e |}.
Definition set_arrays (h : list (list Turn)) (e : Env) : Env :=
  {| connectedUsers := connectedUsers e; userMemory := userMemory e;
     arrays := h; clock := clock e; ticks := ticks e |}.

Definition userMemory_has (k : string) : M bool :=
  λ e, (bool_decide (is_Some (userMemory e !! k)), e, []).
Definition userMemory_set (k : string) (r : ref) : M unit :=
  λ e, (tt, set_userMemory (<[k := r]> (userMemory e)) e, []).
Definition userMemory_get (k : string) : M (option ref) :=
  λ e, (userMemory e !! k, e, []).
Definition userMemory_delete (k : string) : M unit :=
  λ e, (tt, set_userMemory (delete k (userMemory e)) e, []).

(** The array literal [[]]: a fresh empty array. *)
Definition new_array : M ref :=
  λ e, (length (arrays e), set_arrays (arrays e ++ [[]]) e, []).
(** [a.push(t)] appends at the end. *)
Definition array_push (a : ref) (t : Turn) : M unit :=
  λ e, (tt, set_arrays (alter (λ l, l ++ [t]) a (arrays e)) e, []).
(** [a.shift()] removes the first element (nothing on an empty array). *)
Definition array_shift (a : ref) : M unit :=
  λ e, (tt, set_arrays (alter (drop 1) a (arrays e)) e, []).
(** The elements of the array, as [a.length] and [a.map] see them. *)
Definition array_read (a : ref) : M (list Turn) :=
  λ e, (default [] (arrays e !! a), e, []).

(** ** Strings *)

Definition LF : string := String (Ascii.ascii_of_nat 10) EmptyString.
Definition DQ : string := String (Ascii.ascii_of_nat 34) EmptyString.

(** [Array.prototype.join]: the elements from left to right, the separator
    before every element but the first; the empty string for no element. *)
Definition join (sep : string) (l : list string) : string :=
  match l with
  | [] => ""
  | x :: xs => fold_left (λ R next, R +:+ sep +:+ next) xs x
  end.

(** [msg => `${msg.role === 'user' ? 'User' : 'Buddy'}: ${msg.content}`] *)
Definition history_line (msg : Turn) : string :=
  (if decide (role msg = role_user) then "User" else "Buddy") +:+ ": " +:+ content msg.

(** [chatHistory.map(...).join('\n')] *)
Definition historyString (chatHistory : list Turn) : string :=
  join LF (history_line <$> chatHistory).

(** ** Handlers that are the same in both servers *)

(** [socket.on('user_join', (userData) => ...)] *)
Definition on_user_join (socket_id : string) (userData : UserData) : M unit :=
  let username := ud_username userData in
  joinTime ← new_Date;
  connectedUsers_set socket_id (mkParticipant username joinTime);;
  now ← new_Date;
  socket_broadcast_emit socket_id
    (user_joined username (username +:+ " joined the chat") (toISOString now));;
  count ← connectedUsers_size;
  io_emit (user_count count).

(** What becomes of a call of a listener: it returns, with the state it
    leaves and the events it has emitted, or the process exits. *)
Inductive Outcome (A : Type) : Type :=
  | Returned (r : A * Env * list Emission)
  | Exited (code : nat).
Arguments Returned {A}.
Arguments Exited {A}.

(** [process.on('uncaughtException', (error) => { console.error(...);
    process.exit(1); })]: where an exception thrown by a listener outside
    any [try] ends up. *)
Definition uncaughtException {A} : Outcome A := Exited 1.

(** The listener of [user_join] as the transport calls it: with the
    payload the client sent, or with [undefined] when it sent none
    ([socket.emit('user_join')]).  The listener has no [try]: on
    [undefined], its first statement [const { username } = userData]
    throws a [TypeError] before anything is stored or emitted. *)
Definition user_join_listener (socket_id : string) (userData : option UserData)
    (e : Env) : Outcome unit :=
  match userData with
  | Some userData => Returned (on_user_join socket_id userData e)
  | None => uncaughtException
  end.

(** [socket.on('typing', (data) => ...)] *)
Definition on_typing (socket_id : string) (data : TypingData) : M unit :=
  user ← connectedUsers_get socket_id;
  match user with
  | Some user => socket_broadcast_emit socket_id (user_typing (username user) (isTyping data))
  | None => mret tt
  end.

(** The outer [catch (error)] block of the [message] handler. *)
Definition catch_error (socket_id : string) : M unit :=
  socket_emit socket_id (error "Failed to process message").

(** How the promise of [model.generateContent(prompt)] settles, followed by
    [result.response.text()]: the reply text, or an exception. *)
Inductive Settled : Type := Fulfilled (aiResponse : string) | Rejected.

(** ** The event loop *)

(** What a socket can send. *)
Inductive SocketEvent : Type :=
  | In_user_join (userData : UserData)
  | In_message (messageData : MessageData)
  | In_typing (data : TypingData)
  | In_disconnect.

(** One turn of the event loop: an event of a socket is delivered, or the
    promise awaited by an earlier [message] handler settles.  A request is
    named by the arrival number of the socket event that issued it. *)
Inductive Input : Type :=
  | FromSocket (socket_id : string) (ev : SocketEvent)
  | Settles (request : nat) (r : Settled).

(** The process: the handlers' state, the suspended [message] handlers,
    the number of socket events delivered so far, and everything emitted
    so far, each emission with the arrival number of the socket event
    whose handler emitted it. *)
Record World (K : Type) : Type := mkWorld {
  env : Env;
  pending : gmap nat K;
  arrivals : nat;
  trace : list (nat * Emission)
}.
Arguments mkWorld {K}.
Arguments env {K}.
Arguments pending {K}.
Arguments arrivals {K}.
Arguments trace {K}.

Definition boot {K : Type} (clk : nat → Z) : World K :=
  mkWorld (initial clk) ∅ 0 [].

Section EventLoop.

Context {K : Type}.
Variable on_message : string → MessageData → M (option K).
Variable on_settled : K → Settled → M unit.
Variable on_disconnect : string → M unit.

(** [socket.on(name, handler)]: the handler registered for the event. *)
Definition dispatch (socket_id : string) (ev : SocketEvent) : M (option K) :=
  match ev with
  | In_user_join userData => on_user_join socket_id userData;; mret None
  | In_message messageData => on_message socket_id messageData
  | In_typing data => on_typing socket_id data;; mret None
  | In_disconnect => on_disconnect socket_id;; mret None
  end.

Definition step (w : World K) (i : Input) : World K :=
  match i with
  | FromSocket socket_id ev =>
      let n := arrivals w in
      let '(k, e, out) := dispatch socket_id ev (env w) in
      mkWorld e
        (match k with Some k => <[n := k]> (pending w) | None => pending w end)
        (S n)
        (trace w ++ (pair n <$> out))
  | Settles n r =>
      match pending w !! n with
      | Some k =>
          let '(_, e, out) := on_settled k r (env w) in
          mkWorld e (delete n (pending w)) (arrivals w)
            (trace w ++ (pair n <$> out))
      | None => w
      end
  end.

Definition run (w : World K) (inputs : list Input) : World K :=
  fold_left step inputs w.

End EventLoop.

(** ** The Buddy server (rolling memory per socket) *)

Module Buddy.

(** What the [message] handler holds on to while it awaits the reply. *)
Record Suspended : Type := mkSuspended {
  k_socket : string;
  k_chatHistory : ref;
  k_prompt : string
}.

Definition prompt (historyString : string) : string :=
  join LF [
    "";
    "You are " +:+ DQ +:+ "Buddy" +:+ DQ +:+ " — a warm, caring AI friend who chats naturally in Hinglish.";
    "Respond **directly and casually**; never ask the user what to do next.";
    "Keep replies short, friendly, and genuine — like a real dost.";
    "";
    "🧩 Conversation Style:";
    "- Casual Hinglish (mix English + Hindi/Urdu)";
    "- Refer to previous messages naturally";
    "- Never ask the user questions or offer options";
    "- Use empathy, jokes, or friendly tone based on the vibe";
    "";
    "🧠 Memory Behavior:";
    "- Remember key details from the chat (user mood, plans, food, etc.)";
    "- Refer back naturally, do not prompt the user for actions";
    "";
    historyString;
    "Buddy:";
    ""
  ].

(** [socket.on('message', async (messageData) => ...)] up to the [await]. *)
Definition on_message (socket_id : string) (messageData : MessageData)
  : M (option Suspended) :=
  let message := md_message messageData in
  let username := md_username messageData in
  user ← connectedUsers_get socket_id;
  match user with
  | None =>
      socket_emit socket_id (error "User not found. Please reconnect.");;
      mret None
  | Some _ =>
      id ← Date_now;
      now ← new_Date;
      io_emit (user_message id username message (toISOString now) "user");;
      has ← userMemory_has socket_id;
      (if negb has then a ← new_array; userMemory_set socket_id a
       else mret tt);;
      chatHistory ← userMemory_get socket_id;
      match chatHistory with
      | None =>
          (* [chatHistory.push] on [undefined] throws, into the [catch] *)
          catch_error socket_id;; mret None
      | Some chatHistory =>
          array_push chatHistory (mkTurn role_user message);;
          l ← array_read chatHistory;
          (if bool_decide (10 < length l) then array_shift chatHistory
           else mret tt);;
          l ← array_read chatHistory;
          mret (Some (mkSuspended socket_id chatHistory (prompt (historyString l))))
      end
  end.

(** The rest of the [message] handler, run when the promise has settled. *)
Definition on_settled (k : Suspended) (r : Settled) : M unit :=
  match r with
  | Fulfilled aiResponse =>
      array_push (k_chatHistory k) (mkTurn role_assistant aiResponse);;
      id ← Date_now;
      now ← new_Date;
      io_emit (ai_message (id + 1)%Z "AI Assistant" aiResponse (toISOString now) "ai")
  | Rejected => catch_error (k_socket k)
  end.

(** [socket.on('disconnect', () => ...)] *)
Definition on_disconnect (socket_id : string) : M unit :=
  user ← connectedUsers_get socket_id;
  match user with
  | Some user =>
      now ← new_Date;
      socket_broadcast_emit socket_id
        (user_left (username user) (username user +:+ " left the chat") (toISOString now));;
      connectedUsers_delete socket_id;;
      userMemory_delete socket_id;;
      count ← connectedUsers_size;
      io_emit (user_count count)
  | None => mret tt
  end.

Definition step := step on_message on_settled on_disconnect.
Definition run := run on_message on_settled on_disconnect.

(** The rolling memory of a socket: the array [userMemory] holds for it. *)
Definition context (e : Env) (socket_id : string) : option (list Turn) :=
  a ← userMemory e !! socket_id; arrays e !! a.

End Buddy.

(** ** The plain server (no memory) *)

Module Plain.

Record Suspended : Type := mkSuspended {
  k_socket : string;
  k_prompt : string
}.

Definition prompt (message : string) : string :=
  "You are a helpful AI assistant in a chat room. Respond to this message in a conversational, friendly manner. Keep responses concise (1-2 sentences) and engaging. Message: "
    +:+ DQ +:+ message +:+ DQ.

(** [socket.on('message', async (messageData) => ...)] up to the [await]. *)
Definition on_message (socket_id : string) (messageData : MessageData)
  : M (option Suspended) :=
  let message := md_message messageData in
  let username := md_username messageData in
  user ← connectedUsers_get socket_id;
  match user with
  | None =>
      socket_emit socket_id (error "User not found. Please reconnect.");;
      mret None
  | Some _ =>
      id ← Date_now;
      now ← new_Date;
      io_emit (user_message id username message (toISOString now) "user");;
      mret (Some (mkSuspended socket_id (prompt message)))
  end.

(** The inner [try] after the [await], and its [catch (aiError)]. *)
Definition on_settled (k : Suspended) (r : Settled) : M unit :=
  match r with
  | Fulfilled aiResponse =>
      id ← Date_now;
      now ← new_Date;
      io_emit (ai_message (id + 1)%Z "AI Assistant" aiResponse (toISOString now) "ai")
  | Rejected =>
      id ← Date_now;
      now ← new_Date;
      io_emit (ai_message (id + 1)%Z "AI Assistant"
                 "Sorry, I encountered an error while processing your message. Please try again."
                 (toISOString now) "ai_error")
  end.

(** [socket.on('disconnect', () => ...)] *)
Definition on_disconnect (socket_id : string) : M unit :=
  user ← connectedUsers_get socket_id;
  match user with
  | Some user =>
      now ← new_Date;
      socket_broadcast_emit socket_id
        (user_left (username user) (username user +:+ " left the chat") (toISOString now));;
      connectedUsers_delete socket_id;;
      count ← connectedUsers_size;
      io_emit (user_count count)
  | None => mret tt
  end.

Definition step := step on_message on_settled on_disconnect.
Definition run := run on_message on_settled on_disconnect.

End Plain.

(** ** The two servers side by side *)

Inductive Server : Type := BuddyServer | PlainServer.

(** Everything the server has emitted after booting with the clock [clk]
    and going through [inputs]. *)
Definition trace_of (v : Server) (clk : nat → Z) (inputs : list Input)
  : list (nat * Emission) :=
  match v with
  | BuddyServer => trace (Buddy.run (boot clk) inputs)
  | PlainServer => trace (Plain.run (boot clk) inputs)
  end.

(** The state of the handlers after a run, and the number of socket events
    delivered in it. *)
Definition env_of (v : Server) (clk : nat → Z) (inputs : list Input) : Env :=
  match v with
  | BuddyServer => env (Buddy.run (boot clk) inputs)
  | PlainServer => env (Plain.run (boot clk) inputs)
  end.

Definition arrivals_of (v : Server) (clk : nat → Z) (inputs : list Input) : nat :=
  match v with
  | BuddyServer => arrivals (Buddy.run (boot clk) inputs)
  | PlainServer => arrivals (Plain.run (boot clk) inputs)
  end.

(** ** Vocabulary of the properties *)

(** Whether the connection [c] receives an event emitted at [t]. *)
Definition delivered_to (t : Target) (c : string) : Prop :=
  match t with
  | ToSocket s => c = s
  | ToOthers s => c ≠ s
  | ToAll => True
  end.

#[global] Instance delivered_to_dec t c : Decision (delivered_to t c).
Proof. destruct t; simpl; apply _. Defined.

Definition is_user_message (ev : OutEvent) : bool :=
  match ev with user_message _ _ _ _ _ => true | _ => false end.
Definition is_ai_message (ev : OutEvent) : bool :=
  match ev with ai_message _ _ _ _ _ => true | _ => false end.
Definition is_user_count (ev : OutEvent) : bool :=
  match ev with user_count _ => true | _ => false end.

Definition ai_id (ev : OutEvent) : option Z :=
  match ev with ai_message id _ _ _ _ => Some id | _ => None end.

(** The references stored in [userMemory] point to allocated arrays. *)
Definition wf (e : Env) : Prop :=
  ∀ s a, userMemory e !! s = Some a → is_Some (arrays e !! a).

(** [if (chatHistory.length > 10) chatHistory.shift()] on the elements. *)
Definition cap (l : list Turn) : list Turn :=
  if bool_decide (10 < length l) then drop 1 l else l.

(** A handler leaves the clock alone and only reads further along it. *)
Definition keeps_clock {A} (m : M A) : Prop :=
  ∀ e, clock (state_of (m e)) = clock e ∧ ticks e ≤ ticks (state_of (m e)).

(** A handler emits no [ai_message]. *)
Definition silent {A} (m : M A) : Prop :=
  ∀ e x, x ∈ emitted (m e) → ai_id x.2 = None.

(** The [user_message] of socket event [n] is entry [j] of the trace, its
    id the [t]-th reading of the clock. *)
Definition echoed {K} (w : World K) (n j t : nat) : Prop :=
  ∃ u m ts ty,
    trace w !! j = Some (n, (ToAll, user_message (clock (env w) t) u m ts ty)).

(** What the event loop maintains: a suspended handler has already echoed
    the user's message, and every reply in the trace follows the echo of
    its own socket event. *)
Record inv {K} (w : World K) : Prop := {
  inv_pending : ∀ n k, pending w !! n = Some k →
    ∃ j t, t < ticks (env w) ∧ echoed w n j t;
  inv_replies : ∀ i n tg ev id,
    trace w !! i = Some (n, (tg, ev)) → ai_id ev = Some id →
    ∃ j t_u t_a, j < i ∧ t_u < t_a ∧ echoed w n j t_u
                 ∧ id = (clock (env w) t_a + 1)%Z
}.

(** The [user_message] a [message] handler emits in the state [e]. *)
Definition echo_of (d : MessageData) (e : Env) : Emission :=
  (ToAll, user_message (clock e (ticks e)) (md_username d) (md_message d)
            (toISOString (clock e (S (ticks e)))) "user").

(** Every entry of the trace, and every suspended handler, belongs to a
    socket event that has been delivered. *)
Record tags_inv {K} (w : World K) : Prop := {
  ti_trace : ∀ i n x, trace w !! i = Some (n, x) → n < arrivals w;
  ti_pending : ∀ n k, pending w !! n = Some k → n < arrivals w
}.

(** *** Rendering, as the specification words it *)

Definition role_label (r : Role) : string :=
  match r with
  | role_user => "User"
  | role_assistant => "Buddy"
  end.

(** The turns oldest first, one line ["<Role>: <content>"] per turn, a
    newline between consecutive lines. *)
Fixpoint render (turns : list Turn) : string :=
  match turns with
  | [] => ""
  | t :: rest =>
      role_label (role t) +:+ ": " +:+ content t +:+
      match rest with
      | [] => ""
      | _ :: _ => LF +:+ render rest
      end
  end.

(** *** One socket talking to the assistant *)

(** Each message of [xs] is sent once the reply to the one before it has
    arrived: a message text paired with the reply the model gives.  The
    first message is socket event number [n]. *)
Fixpoint exchanges (socket_id username : string) (n : nat)
    (xs : list (string * string)) : list Input :=
  match xs with
  | [] => []
  | x :: xs =>
      FromSocket socket_id (In_message (mkMessageData x.1 username))
      :: Settles n (Fulfilled x.2)
      :: exchanges socket_id username (S n) xs
  end.

(** [user_join], then the exchanges. *)
Definition session (socket_id username : string) (xs : list (string * string))
  : list Input :=
  FromSocket socket_id (In_user_join (mkUserData username))
  :: exchanges socket_id username 1 xs.

(** Every turn of the conversation, oldest first. *)
Definition transcript (xs : list (string * string)) : list Turn :=
  x ← xs; [mkTurn role_user x.1; mkTurn role_assistant x.2].

(** What one exchange does to the array. *)
Definition roll (h : list Turn) (x : string * string) : list Turn :=
  cap (h ++ [mkTurn role_user x.1]) ++ [mkTurn role_assistant x.2].

(** *** Concrete runs *)

(** A clock that advances a quarter of a second between two readings. *)
Definition example_clock : nat → Z :=
  λ n, (1700000000000 + 250 * Z.of_nat n)%Z.

Definition alice_joined : Env :=
  state_of (on_user_join "sockA" (mkUserData "Alice") (initial example_clock)).

Definition alice_says_hi : list Input :=
  [FromSocket "sockA" (In_user_join (mkUserData "Alice"));
   FromSocket "sockA" (In_message (mkMessageData "hi" "Alice"))].

Definition alice_gets_reply : list Input :=
  alice_says_hi ++ [Settles 1 (Fulfilled "hello")].

Definition alice_gets_no_reply : list Input :=
  alice_says_hi ++ [Settles 1 Rejected].

Definition six_exchanges : list (string * string) :=
  [("m1", "r1"); ("m2", "r2"); ("m3", "r3");
   ("m4", "r4"); ("m5", "r5"); ("m6", "r6")].

(** ** The memory of the Buddy server *)

(** No two sockets hold the same array. *)
Definition separate (e : Env) : Prop :=
  ∀ s1 s2 a, userMemory e !! s1 = Some a → userMemory e !! s2 = Some a → s1 = s2.

(** What every run of the Buddy server maintains about its memory. *)
Record memory_inv (w : World Buddy.Suspended) : Prop := {
  mi_registered : ∀ s a, userMemory (env w) !! s = Some a →
    is_Some (connectedUsers (env w) !! s);
  mi_wf : wf (env w);
  mi_separate : separate (env w);
  mi_pending_alloc : ∀ n k, pending w !! n = Some k →
    is_Some (arrays (env w) !! Buddy.k_chatHistory k);
  mi_pending_owner : ∀ n k s, pending w !! n = Some k →
    userMemory (env w) !! s = Some (Buddy.k_chatHistory k) → s = Buddy.k_socket k
}.

(** The socket an input is about: the sender of a socket event, or the
    sender of the message whose reply settles. *)
Definition concerns (w : World Buddy.Suspended) (i : Input) : option string :=
  match i with
  | FromSocket s _ => Some s
  | Settles n _ => Buddy.k_socket <$> pending w !! n
  end.

(** Pushing on an array and capping it leaves the other arrays alone. *)
Definition push_cap (t : Turn) (a : nat) (arrs : list (list Turn)) : list (list Turn) :=
  let arrays1 := alter (λ l, l ++ [t]) a arrs in
  if bool_decide (10 < length (default [] (arrays1 !! a)))
  then alter (drop 1) a arrays1 else arrays1.

Arguments push_cap : simpl never.

(** ** The HTTP routes that read the registry *)

(** [GET /health]: [{ status, timestamp, connectedUsers, uptime }], without
    [uptime] (a floating-point number of seconds read from the runtime). *)
Record Health : Type := mkHealth {
  h_status : string;
  h_timestamp : ISOString;
  h_connectedUsers : nat
}.

Definition health : M Health :=
  now ← new_Date;
  connectedUsers ← connectedUsers_size;
  mret (mkHealth "healthy" (toISOString now) connectedUsers).

(** [GET /api/users]: [{ users, count: users.length }], a user being
    [{ username, joinTime }].  A JavaScript [Map] lists its values in the
    order the keys were first set; the registry as a finite map does not
    keep that order, and [users] is the list of its values in the finite
    map's own order. *)
Definition api_users (e : Env) : list (string * Z) * nat :=
  let users :=
    (λ user : Participant, (username user, joinTime user))
      <$> (map_to_list (connectedUsers e)).*2 in
  (users, length users).

(** ** The React client: what it keeps of the events it receives *)

Module App.

(** An entry of [messages]: [{ id, text, type, timestamp }], without the id
    (the clock plus a random number) and the time in the locale's format. *)
Record Message : Type := mkMessage {
  text : string;
  type : string
}.

(** The [useState] variables of the component that its socket listeners
    write: [messages], [userCount] and [typingUsers]. *)
Record State : Type := mkState {
  messages : list Message;
  userCount : nat;
  typingUsers : list string
}.

Definition initial : State := mkState [] 0 [].






End App.

(** ** What a whole trace shows *)

(** [user_joined], [user_left] and [user_typing] go to the other sockets,
    [user_message], [ai_message] and [user_count] to all of them, and
    [error] to one socket. *)
Definition addressed_as_expected (x : Emission) : bool :=
  match x.2, x.1 with
  | (user_joined _ _ _ | user_left _ _ _ | user_typing _ _), ToOthers _ => true
  | (user_message _ _ _ _ _ | ai_message _ _ _ _ _ | user_count _), ToAll => true
  | error _, ToSocket _ => true
  | _, _ => false
  end.

(** The counts of the [user_count] events, in order. *)
Definition counts (evs : list OutEvent) : list nat :=
  omap (λ ev, match ev with user_count c => Some c | _ => None end) evs.


(** A handler's emissions are well addressed. *)
Definition well_addressed {A} (m : M A) : Prop :=
  ∀ e, Forall (λ x, addressed_as_expected x = true) (emitted (m e)).

(** A handler that changes the size of the registry ends by emitting it,
    and one that does not emits no [user_count]. *)
Definition counted {A} (m : M A) : Prop :=
  ∀ e, default (size (connectedUsers e)) (last (counts ((emitted (m e)).*2)))
       = size (connectedUsers (state_of (m e))).

(** ** Conversations whose replies may fail *)

(** As [exchanges], each message with the way its generation call settles. *)
Fixpoint dialogue (socket_id username : string) (n : nat)
    (xs : list (string * Settled)) : list Input :=
  match xs with
  | [] => []
  | x :: xs =>
      FromSocket socket_id (In_message (mkMessageData x.1 username))
      :: Settles n x.2
      :: dialogue socket_id username (S n) xs
  end.

(** The turn a settled generation call appends, if any. *)
Definition reply_turn (r : Settled) : list Turn :=
  match r with
  | Fulfilled aiResponse => [mkTurn role_assistant aiResponse]
  | Rejected => []
  end.

(** What one message and its settled call do to the array. *)
Definition roll_with (h : list Turn) (x : string * Settled) : list Turn :=
  cap (h ++ [mkTurn role_user x.1]) ++ reply_turn x.2.

Definition is_fulfilled (r : Settled) : bool :=
  match r with Fulfilled _ => true | Rejected => false end.

(** The number of calls that succeeded. *)
Definition fulfilled (xs : list (string * Settled)) : nat :=
  length (filter (λ x, is_fulfilled x.2) xs).

(** Unfolds a handler down to the state it returns and the events it emits. *)
Ltac run_handler :=
  repeat (unfold mbind, mret, M_bind, M_ret,
            on_user_join, on_typing, catch_error,
            Buddy.on_message, Buddy.on_settled, Buddy.on_disconnect,
            Plain.on_message, Plain.on_settled, Plain.on_disconnect,
            new_Date, Date_now, socket_emit, socket_broadcast_emit, io_emit,
            connectedUsers_set, connectedUsers_get, connectedUsers_delete,
            connectedUsers_size, userMemory_has, userMemory_set,
            userMemory_get, userMemory_delete, new_array, array_push,
            array_shift, array_read, set_connectedUsers, set_userMemory,
            set_arrays, result, state_of, emitted; simpl).

(** The shape both [message] handlers have in common. *)
Ltac message_cases H :=
  destruct H as [H | (k & e' & H & Hcu & Hclk & Htk & Hks)];
  rewrite H; unfold state_of, emitted, result; simpl.

(** * Properties *)

(** ** The handlers, equation by equation *)

Lemma buddy_on_message_unregistered socket_id d e :
  connectedUsers e !! socket_id = None →
  Buddy.on_message socket_id d e =
    (None, e, [(ToSocket socket_id, error "User not found. Please reconnect.")]).
Proof. intros H. run_handler. rewrite H. reflexivity. Qed.

Lemma is_Some_alter_list {A} (f : A → A) (l : list A) i j :
  is_Some (alter f i l !! j) ↔ is_Some (l !! j).
Proof. by rewrite !lookup_lt_is_Some, length_alter. Qed.

Lemma context_eq e s a h :
  userMemory e !! s = Some a → arrays e !! a = Some h →
  Buddy.context e s = Some h.
Proof. intros Hm Hh. unfold Buddy.context. by rewrite Hm. Qed.

Lemma buddy_on_message_registered socket_id d e u :
  connectedUsers e !! socket_id = Some u →
  wf e →
  ∃ k e',
    Buddy.on_message socket_id d e =
      (Some k, e',
       [(ToAll, user_message (clock e (ticks e)) (md_username d) (md_message d)
                  (toISOString (clock e (S (ticks e)))) "user")])
    ∧ connectedUsers e' = connectedUsers e
    ∧ clock e' = clock e
    ∧ ticks e' = S (S (ticks e))
    ∧ wf e'
    ∧ Buddy.k_socket k = socket_id
    ∧ userMemory e' !! socket_id = Some (Buddy.k_chatHistory k)
    ∧ Buddy.context e' socket_id =
        Some (cap (default [] (Buddy.context e socket_id)
                     ++ [mkTurn role_user (md_message d)]))
    ∧ Buddy.k_prompt k =
        Buddy.prompt (historyString
          (cap (default [] (Buddy.context e socket_id)
                  ++ [mkTurn role_user (md_message d)]))).
Proof.
  intros H Hwf. run_handler. rewrite H. simpl.
  destruct (userMemory e !! socket_id) as [a|] eqn:Hm; simpl.
  - rewrite Hm. simpl. destruct (Hwf _ _ Hm) as [h Hh].
    rewrite (context_eq _ _ _ _ Hm Hh). simpl. unfold cap.
    rewrite list_lookup_alter_eq, Hh. simpl.
    case_bool_decide as Hlen; simpl; (eexists _, _; split; [reflexivity|]); simpl;
      repeat split; try done.
    + intros s b Hs. simpl in *. rewrite !is_Some_alter_list. eauto.
    + unfold Buddy.context. simpl. rewrite Hm. simpl.
      by rewrite !list_lookup_alter_eq, Hh.
    + by rewrite !list_lookup_alter_eq, Hh.
    + intros s b Hs. simpl in *. rewrite !is_Some_alter_list. eauto.
    + unfold Buddy.context. simpl. rewrite Hm. simpl.
      by rewrite !list_lookup_alter_eq, Hh.
    + by rewrite !list_lookup_alter_eq, Hh.
  - rewrite lookup_insert_eq. simpl.
    assert (Buddy.context e socket_id = None) as ->.
    { unfold Buddy.context. by rewrite Hm. }
    simpl. unfold cap. simpl.
    assert (Hl : ∀ f : list Turn → list Turn,
               alter f (length (arrays e)) (arrays e ++ [[]]) !! length (arrays e)
               = Some (f [])).
    { intros f. rewrite list_lookup_alter_eq.
      by rewrite lookup_app_r, Nat.sub_diag by lia. }
    rewrite Hl. simpl.
    eexists _, _; split; [reflexivity|]; simpl; repeat split; try done.
    + intros s b Hs. simpl in *. rewrite is_Some_alter_list.
      rewrite lookup_lt_is_Some, length_app. simpl.
      destruct (decide (socket_id = s)) as [->|Hne].
      * rewrite lookup_insert_eq in Hs. injection Hs as <-. lia.
      * rewrite lookup_insert_ne in Hs by done.
        apply Hwf, lookup_lt_is_Some in Hs. lia.
    + by rewrite lookup_insert_eq.
    + unfold Buddy.context. simpl. rewrite lookup_insert_eq. simpl. by rewrite Hl.
    + by rewrite Hl.
Qed.

Lemma plain_on_message_unregistered socket_id d e :
  connectedUsers e !! socket_id = None →
  Plain.on_message socket_id d e =
    (None, e, [(ToSocket socket_id, error "User not found. Please reconnect.")]).
Proof. intros H. run_handler. rewrite H. reflexivity. Qed.

Lemma plain_on_message_registered socket_id d e u :
  connectedUsers e !! socket_id = Some u →
  Plain.on_message socket_id d e =
    (Some (Plain.mkSuspended socket_id (Plain.prompt (md_message d))),
     mkEnv (connectedUsers e) (userMemory e) (arrays e) (clock e) (S (S (ticks e))),
     [(ToAll, user_message (clock e (ticks e)) (md_username d) (md_message d)
                (toISOString (clock e (S (ticks e)))) "user")]).
Proof. intros H. run_handler. rewrite H. reflexivity. Qed.

Lemma on_user_join_eq socket_id userData e :
  on_user_join socket_id userData e =
    (tt,
     mkEnv (<[socket_id := mkParticipant (ud_username userData) (clock e (ticks e))]>
              (connectedUsers e))
           (userMemory e) (arrays e) (clock e) (S (S (ticks e))),
     [(ToOthers socket_id,
       user_joined (ud_username userData)
         (ud_username userData +:+ " joined the chat")
         (toISOString (clock e (S (ticks e)))));
      (ToAll,
       user_count
         (size (<[socket_id := mkParticipant (ud_username userData) (clock e (ticks e))]>
                  (connectedUsers e))))]).
Proof. reflexivity. Qed.

Lemma on_typing_eq socket_id data e :
  on_typing socket_id data e =
    (tt, e,
     match connectedUsers e !! socket_id with
     | Some user => [(ToOthers socket_id, user_typing (username user) (isTyping data))]
     | None => []
     end).
Proof. run_handler. by destruct (connectedUsers e !! socket_id). Qed.

Lemma buddy_on_disconnect_eq socket_id e :
  Buddy.on_disconnect socket_id e =
    match connectedUsers e !! socket_id with
    | Some user =>
        (tt,
         mkEnv (delete socket_id (connectedUsers e)) (delete socket_id (userMemory e))
               (arrays e) (clock e) (S (ticks e)),
         [(ToOthers socket_id,
           user_left (username user) (username user +:+ " left the chat")
             (toISOString (clock e (ticks e))));
          (ToAll, user_count (size (delete socket_id (connectedUsers e))))])
    | None => (tt, e, [])
    end.
Proof. run_handler. by destruct (connectedUsers e !! socket_id). Qed.

Lemma plain_on_disconnect_eq socket_id e :
  Plain.on_disconnect socket_id e =
    match connectedUsers e !! socket_id with
    | Some user =>
        (tt,
         mkEnv (delete socket_id (connectedUsers e)) (userMemory e)
               (arrays e) (clock e) (S (ticks e)),
         [(ToOthers socket_id,
           user_left (username user) (username user +:+ " left the chat")
             (toISOString (clock e (ticks e))));
          (ToAll, user_count (size (delete socket_id (connectedUsers e))))])
    | None => (tt, e, [])
    end.
Proof. run_handler. by destruct (connectedUsers e !! socket_id). Qed.

Lemma buddy_on_settled_eq k r e :
  Buddy.on_settled k r e =
    match r with
    | Fulfilled aiResponse =>
        (tt,
         mkEnv (connectedUsers e) (userMemory e)
               (alter (λ l, l ++ [mkTurn role_assistant aiResponse])
                      (Buddy.k_chatHistory k) (arrays e))
               (clock e) (S (S (ticks e))),
         [(ToAll, ai_message (clock e (ticks e) + 1)%Z "AI Assistant" aiResponse
                    (toISOString (clock e (S (ticks e)))) "ai")])
    | Rejected =>
        (tt, e, [(ToSocket (Buddy.k_socket k), error "Failed to process message")])
    end.
Proof. by destruct r. Qed.

Lemma plain_on_settled_eq k r e :
  Plain.on_settled k r e =
    (tt,
     mkEnv (connectedUsers e) (userMemory e) (arrays e) (clock e) (S (S (ticks e))),
     [(ToAll,
       match r with
       | Fulfilled aiResponse =>
           ai_message (clock e (ticks e) + 1)%Z "AI Assistant" aiResponse
             (toISOString (clock e (S (ticks e)))) "ai"
       | Rejected =>
           ai_message (clock e (ticks e) + 1)%Z "AI Assistant"
             "Sorry, I encountered an error while processing your message. Please try again."
             (toISOString (clock e (S (ticks e)))) "ai_error"
       end)]).
Proof. by destruct r. Qed.

(** ** Replies come after the echo *)

Lemma keeps_clock_bind {A B} (m : M A) (f : A → M B) :
  keeps_clock m → (∀ a, keeps_clock (f a)) → keeps_clock (m ≫= f).
Proof.
  intros Hm Hf e. unfold mbind, M_bind.
  specialize (Hm e). destruct (m e) as [[a e1] o1].
  specialize (Hf a e1). destruct (f a e1) as [[b e2] o2].
  unfold state_of in *. simpl in *.
  destruct Hm, Hf. split; [congruence | lia].
Qed.

Lemma silent_bind {A B} (m : M A) (f : A → M B) :
  silent m → (∀ a, silent (f a)) → silent (m ≫= f).
Proof.
  intros Hm Hf e x. unfold mbind, M_bind.
  specialize (Hm e). destruct (m e) as [[a e1] o1].
  specialize (Hf a e1). destruct (f a e1) as [[b e2] o2].
  unfold emitted in *. simpl in *.
  rewrite elem_of_app. intros [?|?]; eauto.
Qed.

Section Echo.

Context {K : Type}.
Variable on_message : string → MessageData → M (option K).
Variable on_settled : K → Settled → M unit.
Variable on_disconnect : string → M unit.

Hypothesis message_clock : ∀ s d, keeps_clock (on_message s d).
Hypothesis message_silent : ∀ s d, silent (on_message s d).
Hypothesis message_echo : ∀ s d e,
  is_Some (result (on_message s d e)) →
  ∃ t ts, (t < ticks (state_of (on_message s d e))) ∧
    (ToAll, user_message (clock e t) (md_username d) (md_message d) ts "user")
      ∈ emitted (on_message s d e).
Hypothesis settled_clock : ∀ k r, keeps_clock (on_settled k r).
Hypothesis settled_ids : ∀ k r e x id,
  x ∈ emitted (on_settled k r e) → ai_id x.2 = Some id →
  ∃ t, (ticks e ≤ t) ∧ id = (clock e t + 1)%Z.
Hypothesis disconnect_clock : ∀ s, keeps_clock (on_disconnect s).
Hypothesis disconnect_silent : ∀ s, silent (on_disconnect s).

Local Abbreviation step := (step on_message on_settled on_disconnect).
Local Abbreviation run := (run on_message on_settled on_disconnect).
Local Abbreviation dispatch := (dispatch on_message on_disconnect).

Lemma inv_boot clk : inv (boot (K:=K) clk).
Proof.
  split.
  - intros n k H. simpl in H. by rewrite lookup_empty in H.
  - intros i n tg ev id H. simpl in H. by rewrite lookup_nil in H.
Qed.

Lemma echoed_later (w w' : World K) l n j t :
  clock (env w') = clock (env w) → trace w' = trace w ++ l →
  echoed w n j t → echoed w' n j t.
Proof.
  intros Hc Ht (u & m & ts & ty & H). exists u, m, ts, ty.
  rewrite Hc, Ht. by apply lookup_app_l_Some.
Qed.

Lemma dispatch_clock s ev : keeps_clock (dispatch s ev).
Proof.
  destruct ev; simpl; auto; apply keeps_clock_bind; auto;
    try (intros ? e; split; reflexivity).
  - intros e. rewrite on_user_join_eq. unfold state_of. simpl. split; [done | lia].
  - intros e. rewrite on_typing_eq. unfold state_of. simpl. split; [done | lia].
Qed.

Lemma dispatch_silent s ev : silent (dispatch s ev).
Proof.
  destruct ev; simpl; auto; apply silent_bind; auto;
    try (intros ? e x Hx; by apply elem_of_nil in Hx).
  - intros e x. rewrite on_user_join_eq. unfold emitted. simpl.
    rewrite !elem_of_cons, elem_of_nil. by intros [->|[->|[]]].
  - intros e x. rewrite on_typing_eq. unfold emitted. simpl.
    destruct (connectedUsers e !! s); rewrite ?elem_of_cons, elem_of_nil.
    + by intros [->|[]].
    + done.
Qed.

Lemma dispatch_echo s ev e :
  is_Some (result (dispatch s ev e)) →
  ∃ t u m ts ty, (t < ticks (state_of (dispatch s ev e))) ∧
    (ToAll, user_message (clock e t) u m ts ty) ∈ emitted (dispatch s ev e).
Proof.
  destruct ev as [d|d|d|]; simpl.
  - unfold mbind, M_bind. destruct (on_user_join s d e) as [[[] e1] o1].
    unfold result. simpl. by intros [? [=]].
  - intros H. destruct (message_echo _ _ _ H) as (t & ts & ? & ?). eauto 10.
  - unfold mbind, M_bind. destruct (on_typing s d e) as [[[] e1] o1].
    unfold result. simpl. by intros [? [=]].
  - unfold mbind, M_bind. destruct (on_disconnect s e) as [[[] e1] o1].
    unfold result. simpl. by intros [? [=]].
Qed.

Lemma step_inv w i : inv w → inv (step w i).
Proof.
  intros [Hp Hr]. destruct i as [s ev | n r]; simpl.
  - pose proof (dispatch_clock s ev (env w)) as [Hc Ht].
    pose proof (dispatch_silent s ev (env w)) as Hs.
    pose proof (dispatch_echo s ev (env w)) as He.
    destruct (dispatch s ev (env w)) as [[k e] out].
    unfold state_of, emitted, result in *. simpl in *.
    set (w' := mkWorld e _ _ _).
    assert (Hlater : ∀ n j t, echoed w n j t → echoed w' n j t).
    { intros n j t. by apply (echoed_later w w' (pair (arrivals w) <$> out)). }
    split.
    + intros n k0 Hn. simpl in Hn.
      assert (Hold : pending w !! n = Some k0 →
                     ∃ j t, (t < ticks (env w')) ∧ echoed w' n j t).
      { intros H. destruct (Hp _ _ H) as (j & t & ? & ?).
        exists j, t. split; [simpl; lia | auto]. }
      destruct k as [k1|]; [|by auto].
      destruct (decide (arrivals w = n)) as [<-|Hne];
        [|rewrite lookup_insert_ne in Hn by done; auto].
      destruct He as (t & u & m & ts & ty & Hlt & Hin); [by eauto|].
      apply list_elem_of_lookup in Hin as [p Hp'].
      exists (length (trace w) + p), t. split; [exact Hlt|].
      exists u, m, ts, ty. simpl. rewrite Hc.
      rewrite lookup_app_r by lia.
      replace (length (trace w) + p - length (trace w)) with p by lia.
      by rewrite list_lookup_fmap, Hp'.
    + intros i n tg ev' id Hi Hid. simpl in Hi.
      apply lookup_app_Some in Hi as [Hi | [Hge Hi]].
      * destruct (Hr _ _ _ _ _ Hi Hid) as (j & tu & ta & ? & ? & ? & ?).
        exists j, tu, ta. simpl. rewrite Hc. auto.
      * rewrite list_lookup_fmap in Hi.
        destruct (out !! (i - length (trace w))) as [x|] eqn:Hx; [|done].
        simpl in Hi. injection Hi as <- ->.
        apply list_elem_of_lookup_2, Hs in Hx. simpl in Hx. congruence.
  - destruct (pending w !! n) as [k|] eqn:Hn; [|by split].
    pose proof (settled_clock k r (env w)) as [Hc Ht].
    pose proof (settled_ids k r (env w)) as Hs.
    destruct (on_settled k r (env w)) as [[[] e] out].
    unfold state_of, emitted in *. simpl in *.
    set (w' := mkWorld e _ _ _).
    assert (Hlater : ∀ n j t, echoed w n j t → echoed w' n j t).
    { intros m j t. by apply (echoed_later w w' (pair n <$> out)). }
    split.
    + intros m k0 Hm. simpl in Hm.
      apply lookup_delete_Some in Hm as [_ Hm].
      destruct (Hp _ _ Hm) as (j & t & ? & ?).
      exists j, t. split; [simpl; lia | auto].
    + intros i m tg ev' id Hi Hid. simpl in Hi.
      apply lookup_app_Some in Hi as [Hi | [Hge Hi]].
      * destruct (Hr _ _ _ _ _ Hi Hid) as (j & tu & ta & ? & ? & ? & ?).
        exists j, tu, ta. simpl. rewrite Hc. auto.
      * rewrite list_lookup_fmap in Hi.
        destruct (out !! (i - length (trace w))) as [x|] eqn:Hx; [|done].
        simpl in Hi. injection Hi as <- ->.
        apply list_elem_of_lookup_2 in Hx.
        destruct (Hs _ _ Hx Hid) as (ta & Hta & ->).
        destruct (Hp _ _ Hn) as (j & tu & Htu & Hj).
        exists j, tu, ta. simpl. rewrite Hc.
        assert (j < length (trace w)).
        { destruct Hj as (? & ? & ? & ? & Hj). by apply lookup_lt_Some in Hj. }
        repeat split; [lia | lia | auto].
Qed.

Lemma run_inv inputs : ∀ w, inv w → inv (run w inputs).
Proof.
  induction inputs as [|i inputs IH]; intros w Hw; [done|].
  simpl. apply IH. by apply step_inv.
Qed.

Lemma step_clock w i : clock (env (step w i)) = clock (env w).
Proof.
  destruct i as [s ev | n r]; simpl.
  - pose proof (dispatch_clock s ev (env w)) as [Hc _].
    by destruct (dispatch s ev (env w)) as [[k e] out].
  - destruct (pending w !! n) as [k|]; [|done].
    pose proof (settled_clock k r (env w)) as [Hc _].
    by destruct (on_settled k r (env w)) as [[[] e] out].
Qed.

Lemma run_clock inputs : ∀ w, clock (env (run w inputs)) = clock (env w).
Proof.
  induction inputs as [|i inputs IH]; intros w; [done|].
  simpl. rewrite IH. apply step_clock.
Qed.

(** Every [ai_message] in the trace comes after the [user_message] of
    the same socket event; both ids are clock readings, the reply's a
    later one, plus one. *)
Lemma reply_after_echo clk inputs i n tg ev id :
  trace (run (boot clk) inputs) !! i = Some (n, (tg, ev)) →
  ai_id ev = Some id →
  ∃ j t_u t_a u m ts ty,
    (j < i) ∧ (t_u < t_a)
    ∧ trace (run (boot clk) inputs) !! j
        = Some (n, (ToAll, user_message (clk t_u) u m ts ty))
    ∧ id = (clk t_a + 1)%Z.
Proof.
  intros Hi Hid.
  destruct (run_inv inputs (boot clk) (inv_boot clk)) as [_ Hr].
  destruct (Hr _ _ _ _ _ Hi Hid) as (j & tu & ta & ? & ? & (u & m & ts & ty & Hj) & ->).
  rewrite run_clock in *. simpl in *.
  exists j, tu, ta, u, m, ts, ty. auto.
Qed.

End Echo.

(** ** The rolling memory over a whole conversation *)

Lemma buddy_exchange (w : World Buddy.Suspended) socket_id u p x :
  wf (env w) →
  connectedUsers (env w) !! socket_id = Some p →
  let w' := Buddy.run w
    [FromSocket socket_id (In_message (mkMessageData x.1 u));
     Settles (arrivals w) (Fulfilled x.2)] in
  wf (env w')
  ∧ connectedUsers (env w') = connectedUsers (env w)
  ∧ arrivals w' = S (arrivals w)
  ∧ Buddy.context (env w') socket_id
      = Some (roll (default [] (Buddy.context (env w) socket_id)) x).
Proof.
  intros Hwf Hp.
  destruct (buddy_on_message_registered socket_id (mkMessageData x.1 u) _ _ Hp Hwf)
    as (k & e' & Heq & Hcu & Hclk & Htk & Hwf' & Hks & Hum & Hctx & Hpr).
  unfold Buddy.run, run. simpl. unfold dispatch. rewrite Heq. simpl.
  rewrite lookup_insert_eq. simpl.
  repeat split; try done.
  - intros s a Hs. simpl in *. rewrite is_Some_alter_list. eauto.
  - unfold Buddy.context in *. simpl. rewrite Hum in *. simpl in *.
    rewrite list_lookup_alter_eq, Hctx. done.
Qed.

Lemma run_exchanges socket_id u p xs :
  ∀ w : World Buddy.Suspended,
  wf (env w) →
  connectedUsers (env w) !! socket_id = Some p →
  Buddy.context (env (Buddy.run w (exchanges socket_id u (arrivals w) xs))) socket_id
  = match xs with
    | [] => Buddy.context (env w) socket_id
    | _ => Some (fold_left roll xs (default [] (Buddy.context (env w) socket_id)))
    end.
Proof.
  induction xs as [|x xs IH]; intros w Hwf Hp; [done|].
  destruct (buddy_exchange w socket_id u p x Hwf Hp) as (Hwf' & Hcu & Har & Hctx).
  cbn [exchanges]. 
  change (Buddy.run w (?a :: ?b :: ?l)) with (Buddy.run (Buddy.run w [a; b]) l).
  rewrite <- Har. rewrite IH; [|done|by rewrite Hcu].
  rewrite Hctx. simpl. by destruct xs.
Qed.

Lemma length_transcript xs : length (transcript xs) = (2 * length xs).
Proof.
  unfold transcript. induction xs as [|x xs IH]; [done|].
  rewrite bind_cons, length_app, IH. simpl. lia.
Qed.

Lemma transcript_snoc xs x :
  transcript (xs ++ [x]) = transcript xs ++ [mkTurn role_user x.1; mkTurn role_assistant x.2].
Proof. unfold transcript. by rewrite bind_app. Qed.

Lemma fold_roll xs :
  fold_left roll xs [] = drop (length xs - 5) (transcript xs).
Proof.
  induction xs as [|x xs IH] using rev_ind; [done|].
  rewrite fold_left_app. simpl. rewrite IH. clear IH.
  rewrite transcript_snoc, length_app. simpl.
  pose proof (length_transcript xs) as Hlen.
  unfold roll, cap. rewrite length_app, length_drop, Hlen. simpl.
  case_bool_decide as Hc.
  - replace (length xs + 1 - 5) with (S (length xs - 5)) by lia.
    rewrite (drop_app_le (transcript xs)) by lia.
    rewrite (drop_app_le (drop _ _)) by (rewrite length_drop; lia).
    rewrite drop_drop, <- app_assoc. simpl.
    by replace (length xs - 5 + 1) with (S (length xs - 5)) by lia.
  - replace (length xs + 1 - 5) with 0 by lia.
    replace (length xs - 5) with 0 by lia.
    simpl. by rewrite <- app_assoc.
Qed.

Lemma buddy_context_after_session clk socket_id u xs :
  default [] (Buddy.context (env (Buddy.run (boot clk) (session socket_id u xs))) socket_id)
    = drop (length xs - 5) (transcript xs).
Proof.
  unfold session.
  change (Buddy.run ?w (?a :: ?l)) with (Buddy.run (Buddy.run w [a]) l).
  pose proof (run_exchanges socket_id u (mkParticipant u (clk 0)) xs
                (Buddy.run (boot clk)
                   [FromSocket socket_id (In_user_join (mkUserData u))])) as H.
  simpl arrivals in H. rewrite H; clear H.
  - assert (Buddy.context (env (Buddy.run (boot clk)
              [FromSocket socket_id (In_user_join (mkUserData u))])) socket_id = None)
      as -> by (unfold Buddy.context; simpl; by rewrite lookup_empty).
    destruct xs; [done|]. by rewrite <- fold_roll.
  - intros s a H. simpl in H. by rewrite lookup_empty in H.
  - simpl. by rewrite lookup_insert_eq.
Qed.

(** ** Both servers fit the event loop's assumptions *)

Lemma buddy_on_message_echo socket_id d e u :
  connectedUsers e !! socket_id = Some u →
  ∃ k e',
    Buddy.on_message socket_id d e =
      (Some k, e',
       [(ToAll, user_message (clock e (ticks e)) (md_username d) (md_message d)
                  (toISOString (clock e (S (ticks e)))) "user")])
    ∧ connectedUsers e' = connectedUsers e
    ∧ clock e' = clock e
    ∧ ticks e' = S (S (ticks e))
    ∧ Buddy.k_socket k = socket_id.
Proof.
  intros H. run_handler. rewrite H. simpl.
  destruct (userMemory e !! socket_id) as [a|] eqn:Hm; simpl.
  - rewrite Hm. simpl. case_bool_decide; simpl; eauto 10.
  - rewrite lookup_insert_eq. simpl. case_bool_decide; simpl; eauto 10.
Qed.

Lemma buddy_on_message_cases socket_id d e :
  Buddy.on_message socket_id d e =
    (None, e, [(ToSocket socket_id, error "User not found. Please reconnect.")])
  ∨ ∃ k e',
      Buddy.on_message socket_id d e =
        (Some k, e',
         [(ToAll, user_message (clock e (ticks e)) (md_username d) (md_message d)
                    (toISOString (clock e (S (ticks e)))) "user")])
      ∧ connectedUsers e' = connectedUsers e
      ∧ clock e' = clock e
      ∧ ticks e' = S (S (ticks e))
      ∧ Buddy.k_socket k = socket_id.
Proof.
  destruct (connectedUsers e !! socket_id) as [u|] eqn:H.
  - right. by apply (buddy_on_message_echo _ _ _ u).
  - left. by apply buddy_on_message_unregistered.
Qed.

Lemma plain_on_message_cases socket_id d e :
  Plain.on_message socket_id d e =
    (None, e, [(ToSocket socket_id, error "User not found. Please reconnect.")])
  ∨ ∃ k e',
      Plain.on_message socket_id d e =
        (Some k, e',
         [(ToAll, user_message (clock e (ticks e)) (md_username d) (md_message d)
                    (toISOString (clock e (S (ticks e)))) "user")])
      ∧ connectedUsers e' = connectedUsers e
      ∧ clock e' = clock e
      ∧ ticks e' = S (S (ticks e))
      ∧ Plain.k_socket k = socket_id.
Proof.
  destruct (connectedUsers e !! socket_id) as [u|] eqn:H.
  - right. rewrite (plain_on_message_registered _ _ _ _ H). eauto 10.
  - left. by apply plain_on_message_unregistered.
Qed.

Lemma buddy_message_clock s d : keeps_clock (Buddy.on_message s d).
Proof.
  intros e. pose proof (buddy_on_message_cases s d e) as H.
  message_cases H; [done | split; [done | lia]].
Qed.

Lemma plain_message_clock s d : keeps_clock (Plain.on_message s d).
Proof.
  intros e. pose proof (plain_on_message_cases s d e) as H.
  message_cases H; [done | split; [done | lia]].
Qed.

Lemma buddy_message_silent s d : silent (Buddy.on_message s d).
Proof.
  intros e x. pose proof (buddy_on_message_cases s d e) as H.
  message_cases H; rewrite elem_of_cons, elem_of_nil; by intros [->|[]].
Qed.

Lemma plain_message_silent s d : silent (Plain.on_message s d).
Proof.
  intros e x. pose proof (plain_on_message_cases s d e) as H.
  message_cases H; rewrite elem_of_cons, elem_of_nil; by intros [->|[]].
Qed.

Lemma buddy_message_echo s d e :
  is_Some (result (Buddy.on_message s d e)) →
  ∃ t ts, t < ticks (state_of (Buddy.on_message s d e)) ∧
    (ToAll, user_message (clock e t) (md_username d) (md_message d) ts "user")
      ∈ emitted (Buddy.on_message s d e).
Proof.
  pose proof (buddy_on_message_cases s d e) as H.
  message_cases H; [by intros [? [=]] | intros _].
  exists (ticks e), (toISOString (clock e (S (ticks e)))).
  split; [lia | apply list_elem_of_here].
Qed.

Lemma plain_message_echo s d e :
  is_Some (result (Plain.on_message s d e)) →
  ∃ t ts, t < ticks (state_of (Plain.on_message s d e)) ∧
    (ToAll, user_message (clock e t) (md_username d) (md_message d) ts "user")
      ∈ emitted (Plain.on_message s d e).
Proof.
  pose proof (plain_on_message_cases s d e) as H.
  message_cases H; [by intros [? [=]] | intros _].
  exists (ticks e), (toISOString (clock e (S (ticks e)))).
  split; [lia | apply list_elem_of_here].
Qed.

Lemma buddy_settled_clock k r : keeps_clock (Buddy.on_settled k r).
Proof.
  intros e. rewrite buddy_on_settled_eq. unfold state_of.
  destruct r; simpl; split; (done || lia).
Qed.

Lemma plain_settled_clock k r : keeps_clock (Plain.on_settled k r).
Proof.
  intros e. rewrite plain_on_settled_eq. unfold state_of.
  simpl; split; (done || lia).
Qed.

Lemma buddy_settled_ids k r e x id :
  x ∈ emitted (Buddy.on_settled k r e) → ai_id x.2 = Some id →
  ∃ t, ticks e ≤ t ∧ id = (clock e t + 1)%Z.
Proof.
  rewrite buddy_on_settled_eq. unfold emitted.
  destruct r; simpl; rewrite elem_of_cons, elem_of_nil;
    intros [->|[]]; simpl; intros [=]; eauto.
Qed.

Lemma plain_settled_ids k r e x id :
  x ∈ emitted (Plain.on_settled k r e) → ai_id x.2 = Some id →
  ∃ t, ticks e ≤ t ∧ id = (clock e t + 1)%Z.
Proof.
  rewrite plain_on_settled_eq. unfold emitted. simpl.
  rewrite elem_of_cons, elem_of_nil.
  intros [->|[]]; destruct r; simpl; intros [=]; eauto.
Qed.

Lemma buddy_disconnect_clock s : keeps_clock (Buddy.on_disconnect s).
Proof.
  intros e. rewrite buddy_on_disconnect_eq. unfold state_of.
  destruct (connectedUsers e !! s); simpl; split; (done || lia).
Qed.

Lemma plain_disconnect_clock s : keeps_clock (Plain.on_disconnect s).
Proof.
  intros e. rewrite plain_on_disconnect_eq. unfold state_of.
  destruct (connectedUsers e !! s); simpl; split; (done || lia).
Qed.

Lemma buddy_disconnect_silent s : silent (Buddy.on_disconnect s).
Proof.
  intros e x. rewrite buddy_on_disconnect_eq. unfold emitted.
  destruct (connectedUsers e !! s); simpl;
    rewrite ?elem_of_cons, elem_of_nil; [by intros [->|[->|[]]] | done].
Qed.

Lemma plain_disconnect_silent s : silent (Plain.on_disconnect s).
Proof.
  intros e x. rewrite plain_on_disconnect_eq. unfold emitted.
  destruct (connectedUsers e !! s); simpl;
    rewrite ?elem_of_cons, elem_of_nil; [by intros [->|[->|[]]] | done].
Qed.

(** In either server, a reply is found in the trace only after the echo
    of the socket event it answers, and its id is one more than a clock
    reading that is later than the one the echo's id was read at. *)
Lemma reply_after_echo_of v clk inputs i n tg ev id :
  trace_of v clk inputs !! i = Some (n, (tg, ev)) →
  ai_id ev = Some id →
  ∃ j t_u t_a u m ts ty,
    j < i ∧ t_u < t_a
    ∧ trace_of v clk inputs !! j
        = Some (n, (ToAll, user_message (clk t_u) u m ts ty))
    ∧ id = (clk t_a + 1)%Z.
Proof.
  destruct v; simpl.
  - apply (reply_after_echo Buddy.on_message Buddy.on_settled Buddy.on_disconnect).
    + apply buddy_message_clock.
    + apply buddy_message_silent.
    + apply buddy_message_echo.
    + apply buddy_settled_clock.
    + apply buddy_settled_ids.
    + apply buddy_disconnect_clock.
    + apply buddy_disconnect_silent.
  - apply (reply_after_echo Plain.on_message Plain.on_settled Plain.on_disconnect).
    + apply plain_message_clock.
    + apply plain_message_silent.
    + apply plain_message_echo.
    + apply plain_settled_clock.
    + apply plain_settled_ids.
    + apply plain_disconnect_clock.
    + apply plain_disconnect_silent.
Qed.

(** ** The echo comes at once *)

Section Run.

Context {K : Type}.
Variable on_message : string → MessageData → M (option K).
Variable on_settled : K → Settled → M unit.
Variable on_disconnect : string → M unit.

Local Abbreviation step := (step on_message on_settled on_disconnect).
Local Abbreviation run := (run on_message on_settled on_disconnect).
Local Abbreviation dispatch := (dispatch on_message on_disconnect).

Lemma run_app w l1 l2 : run w (l1 ++ l2) = run (run w l1) l2.
Proof. apply fold_left_app. Qed.

Lemma tags_inv_boot clk : tags_inv (boot (K:=K) clk).
Proof.
  split; simpl.
  - intros i n x H. by rewrite lookup_nil in H.
  - intros n k H. by rewrite lookup_empty in H.
Qed.

Lemma tags_inv_step w i : tags_inv w → tags_inv (step w i).
Proof.
  intros [Ht Hp]. destruct i as [s ev | n r]; simpl.
  - destruct (dispatch s ev (env w)) as [[k e] out]. split; simpl.
    + intros i n x [Hi | [_ Hi]]%lookup_app_Some.
      * apply Ht in Hi. lia.
      * rewrite list_lookup_fmap in Hi.
        destruct (out !! _); [|done]. simpl in Hi. injection Hi as <- _. lia.
    + intros n k' Hn. destruct k as [k|].
      * destruct (decide (arrivals w = n)) as [<-|Hne]; [lia|].
        rewrite lookup_insert_ne in Hn by done. apply Hp in Hn. lia.
      * apply Hp in Hn. lia.
  - destruct (pending w !! n) as [k|] eqn:Hn; [|by split].
    destruct (on_settled k r (env w)) as [[[] e] out]. split; simpl.
    + intros i m x [Hi | [_ Hi]]%lookup_app_Some.
      * by apply Ht in Hi.
      * rewrite list_lookup_fmap in Hi.
        destruct (out !! _); [|done]. simpl in Hi. injection Hi as <- _. eauto.
    + intros m k' [_ Hm]%lookup_delete_Some. eauto.
Qed.

Lemma tags_inv_run inputs : ∀ w, tags_inv w → tags_inv (run w inputs).
Proof.
  induction inputs as [|i inputs IH]; intros w Hw; [done|].
  apply IH. by apply tags_inv_step.
Qed.

(** The trace only grows. *)
Lemma step_extends w i : ∃ t, trace (step w i) = trace w ++ t.
Proof.
  destruct i as [s ev | n r]; simpl.
  - destruct (dispatch s ev (env w)) as [[k e] out]. simpl. eauto.
  - destruct (pending w !! n) as [k|]; [|exists []; by rewrite app_nil_r].
    destruct (on_settled k r (env w)) as [[[] e] out]. simpl. eauto.
Qed.

Lemma run_extends inputs : ∀ w, ∃ t, trace (run w inputs) = trace w ++ t.
Proof.
  induction inputs as [|i inputs IH]; intros w.
  - exists []. by rewrite app_nil_r.
  - destruct (step_extends w i) as [t1 H1].
    destruct (IH (step w i)) as [t2 H2].
    exists (t1 ++ t2). simpl. by rewrite H2, H1, app_assoc.
Qed.

(** The first half of the [message] handler echoes the message of a
    registered socket and suspends. *)
Hypothesis message_echoes : ∀ s d e u,
  connectedUsers e !! s = Some u →
  ∃ k e', on_message s d e = (Some k, e', [echo_of d e])
          ∧ connectedUsers e' = connectedUsers e.

Lemma echo_then_replies w socket_id d u later :
  tags_inv w →
  connectedUsers (env w) !! socket_id = Some u →
  trace (step w (FromSocket socket_id (In_message d)))
    = trace w ++ [(arrivals w, echo_of d (env w))]
  ∧ is_Some (pending (step w (FromSocket socket_id (In_message d))) !! arrivals w)
  ∧ connectedUsers (env (step w (FromSocket socket_id (In_message d))))
      = connectedUsers (env w)
  ∧ trace (run w (FromSocket socket_id (In_message d) :: later)) !! length (trace w)
      = Some (arrivals w, echo_of d (env w))
  ∧ ∀ i tg ev,
      trace (run w (FromSocket socket_id (In_message d) :: later)) !! i
        = Some (arrivals w, (tg, ev)) →
      is_ai_message ev = true →
      length (trace w) < i.
Proof.
  intros [Ht Hp] Hu.
  destruct (message_echoes socket_id d (env w) u Hu) as (k & e' & Heq & Hcu).
  assert (H1 : trace (step w (FromSocket socket_id (In_message d)))
               = trace w ++ [(arrivals w, echo_of d (env w))]).
  { simpl. by rewrite Heq. }
  assert (H2 : trace (run w (FromSocket socket_id (In_message d) :: later))
               !! length (trace w) = Some (arrivals w, echo_of d (env w))).
  { change (run w (?a :: later)) with (run (step w a) later).
    destruct (run_extends later (step w (FromSocket socket_id (In_message d))))
      as [t Hx]. rewrite Hx, H1, <- app_assoc.
    by rewrite lookup_app_r, Nat.sub_diag by lia. }
  split; [exact H1|]. split; [simpl; rewrite Heq; simpl; by rewrite lookup_insert_eq|].
  split; [simpl; by rewrite Heq|]. split; [exact H2|].
  intros i tg ev Hi Hev.
  destruct (decide (i < length (trace w))) as [Hlt|Hge].
  - change (run w (?a :: later)) with (run (step w a) later) in Hi.
    destruct (run_extends later (step w (FromSocket socket_id (In_message d))))
      as [t Hx]. rewrite Hx, H1, <- app_assoc in Hi.
    rewrite lookup_app_l in Hi by done. apply Ht in Hi. lia.
  - destruct (decide (i = length (trace w))) as [->|Hne]; [|lia].
    rewrite H2 in Hi. injection Hi as <- <-. discriminate.
Qed.

End Run.

Lemma buddy_message_echoes s d e u :
  connectedUsers e !! s = Some u →
  ∃ k e', Buddy.on_message s d e = (Some k, e', [echo_of d e])
          ∧ connectedUsers e' = connectedUsers e.
Proof.
  intros H. destruct (buddy_on_message_echo s d e u H) as (k & e' & Heq & Hcu & _).
  eauto.
Qed.

Lemma plain_message_echoes s d e u :
  connectedUsers e !! s = Some u →
  ∃ k e', Plain.on_message s d e = (Some k, e', [echo_of d e])
          ∧ connectedUsers e' = connectedUsers e.
Proof.
  intros H. rewrite (plain_on_message_registered _ _ _ _ H). eauto.
Qed.

(** ** Strings *)

Lemma append_assoc (a b c : string) : (a +:+ b) +:+ c = a +:+ b +:+ c.
Proof.
  induction a as [|x a IH]; [done|].
  change (String x ((a +:+ b) +:+ c) = String x (a +:+ b +:+ c)). by rewrite IH.
Qed.

Lemma append_empty_r (a : string) : a +:+ "" = a.
Proof.
  induction a as [|x a IH]; [done|].
  change (String x (a +:+ "") = String x a). by rewrite IH.
Qed.

Lemma fold_join sep xs acc :
  fold_left (λ R next, R +:+ sep +:+ next) xs acc
  = acc +:+ fold_right (λ next R, sep +:+ next +:+ R) "" xs.
Proof.
  revert acc. induction xs as [|x xs IH]; intros acc; simpl.
  - by rewrite append_empty_r.
  - by rewrite IH, !append_assoc.
Qed.

Lemma history_line_label msg :
  history_line msg = role_label (role msg) +:+ ": " +:+ content msg.
Proof. unfold history_line. by destruct (role msg). Qed.

Lemma join_render_tail rest :
  fold_right (λ next R, LF +:+ next +:+ R) "" (history_line <$> rest)
  = match rest with [] => "" | _ :: _ => LF +:+ render rest end.
Proof.
  induction rest as [|t rest IH]; [done|].
  cbn [fmap list_fmap fold_right render]. fold (fmap (M:=list) history_line rest).
  by rewrite IH, history_line_label, !append_assoc.
Qed.

(** ** The claims *)

(** C8.  The prompt context built from a [chatHistory] is the rendering the
    specification describes: the turns in the order of the array (oldest
    first), one line ["User: <content>"] or ["Buddy: <content>"] per turn,
    consecutive lines separated by one newline. *)
Theorem historyString_renders_turns (chatHistory : list Turn) :
  historyString chatHistory = render chatHistory.
Proof.
  unfold historyString, join. destruct chatHistory as [|t rest]; [done|].
  cbn [fmap list_fmap render]. fold (fmap (M:=list) history_line rest).
  by rewrite fold_join, join_render_tail, history_line_label, !append_assoc.
Qed.

(** C1.  The rolling memory is not held to ten entries.  After a socket has
    joined and gone through the exchanges [xs] one after the other, its
    array holds the most recent turns of the conversation in order: all of
    them up to five exchanges, and from then on all but the oldest
    [length xs - 5], which is [length xs + 5] entries.  Each exchange
    appends two turns and evicts at most one. *)
Theorem buddy_context_outgrows_cap clk socket_id u xs :
  let h := default []
    (Buddy.context (env (Buddy.run (boot clk) (session socket_id u xs))) socket_id) in
  h = drop (length xs - 5) (transcript xs)
  ∧ length h = (2 * length xs) `min` (length xs + 5).
Proof.
  cbv zeta. rewrite buddy_context_after_session. split; [done|].
  rewrite length_drop, length_transcript. lia.
Qed.

(** Six exchanges leave eleven entries. *)
Example buddy_context_after_six_exchanges :
  length (default []
    (Buddy.context
       (env (Buddy.run (boot example_clock) (session "sockA" "Alice" six_exchanges)))
       "sockA")) = 11.
Proof. vm_compute. reflexivity. Qed.

(** C2 (as amended).  A [message] of a registered participant is first
    echoed: up to the generation call the handler emits the
    [user_message] and nothing else, so no [ai_message] yet, and it leaves
    the registry as it is.  When the call then fails, in whatever state
    the server is by then, the plain server emits exactly one
    [ai_message] of type ["ai_error"] to all connections, and the Buddy
    server emits exactly one [error] event to the sending socket and no
    [ai_message]; both return normally and leave the registry, the sender's
    entry included, as they find it.  In the event loop the two halves
    together add these two entries to the trace, and the handler is
    gone. *)
Theorem generation_failure_is_reported socket_id d e u :
  connectedUsers e !! socket_id = Some u →
  (∃ k e1,
     Plain.on_message socket_id d e = (Some k, e1, [echo_of d e])
     ∧ connectedUsers e1 = connectedUsers e
     ∧ (∀ e2, Plain.on_settled k Rejected e2 =
         (tt,
          mkEnv (connectedUsers e2) (userMemory e2) (arrays e2) (clock e2)
                (S (S (ticks e2))),
          [(ToAll,
            ai_message (clock e2 (ticks e2) + 1)%Z "AI Assistant"
              "Sorry, I encountered an error while processing your message. Please try again."
              (toISOString (clock e2 (S (ticks e2)))) "ai_error")]))
     ∧ ∀ w, env w = e →
         let w' := Plain.run w [FromSocket socket_id (In_message d);
                                Settles (arrivals w) Rejected] in
         trace w' =
           trace w ++
             [(arrivals w, echo_of d e);
              (arrivals w,
               (ToAll,
                ai_message (clock e (S (S (ticks e))) + 1)%Z "AI Assistant"
                  "Sorry, I encountered an error while processing your message. Please try again."
                  (toISOString (clock e (S (S (S (ticks e)))))) "ai_error"))]
         ∧ connectedUsers (env w') = connectedUsers e
         ∧ pending w' !! arrivals w = None)
  ∧ (∃ k e1,
       Buddy.on_message socket_id d e = (Some k, e1, [echo_of d e])
       ∧ connectedUsers e1 = connectedUsers e
       ∧ (∀ e2, Buddy.on_settled k Rejected e2 =
           (tt, e2, [(ToSocket socket_id, error "Failed to process message")]))
       ∧ ∀ w, env w = e →
           let w' := Buddy.run w [FromSocket socket_id (In_message d);
                                  Settles (arrivals w) Rejected] in
           trace w' =
             trace w ++
               [(arrivals w, echo_of d e);
                (arrivals w,
                 (ToSocket socket_id, error "Failed to process message"))]
           ∧ env w' = e1
           ∧ pending w' !! arrivals w = None).
Proof.
  intros H. split.
  - eexists _, _. split; [apply (plain_on_message_registered _ _ _ _ H)|].
    split; [reflexivity|]. split.
    + intros e2. by rewrite plain_on_settled_eq.
    + intros w <-. cbv zeta.
      unfold Plain.run, run, Plain.step. simpl.
      rewrite (plain_on_message_registered _ _ _ _ H). simpl.
      rewrite lookup_insert_eq. simpl.
      rewrite <- app_assoc. repeat split. apply lookup_delete_eq.
  - destruct (buddy_on_message_echo socket_id d e u H)
      as (k & e1 & Heq & Hcu & _ & _ & Hks).
    exists k, e1. split; [exact Heq|]. split; [exact Hcu|]. split.
    + intros e2. by rewrite buddy_on_settled_eq, Hks.
    + intros w <-. cbv zeta.
      unfold Buddy.run, run, Buddy.step. simpl.
      rewrite Heq. simpl. rewrite lookup_insert_eq. simpl. rewrite Hks.
      rewrite <- app_assoc. repeat split. apply lookup_delete_eq.
Qed.

Lemma generation_failure_is_reported_witness :
  connectedUsers alice_joined !! "sockA"
    = Some (mkParticipant "Alice" (example_clock 0))
  ∧ (∃ k e1,
       Plain.on_message "sockA" (mkMessageData "hi" "Alice") alice_joined
         = (Some k, e1, [echo_of (mkMessageData "hi" "Alice") alice_joined])
       ∧ connectedUsers e1 = connectedUsers alice_joined
       ∧ Plain.on_settled k Rejected e1 =
           (tt,
            mkEnv (connectedUsers e1) (userMemory e1) (arrays e1) (clock e1)
                  (S (S (ticks e1))),
            [(ToAll,
              ai_message (clock e1 (ticks e1) + 1)%Z "AI Assistant"
                "Sorry, I encountered an error while processing your message. Please try again."
                (toISOString (clock e1 (S (ticks e1)))) "ai_error")]))
  ∧ (∃ k e1,
       Buddy.on_message "sockA" (mkMessageData "hi" "Alice") alice_joined
         = (Some k, e1, [echo_of (mkMessageData "hi" "Alice") alice_joined])
       ∧ connectedUsers e1 = connectedUsers alice_joined
       ∧ Buddy.on_settled k Rejected e1 =
           (tt, e1, [(ToSocket "sockA", error "Failed to process message")])).
Proof.
  split; [reflexivity|].
  destruct (generation_failure_is_reported "sockA" (mkMessageData "hi" "Alice")
              alice_joined (mkParticipant "Alice" (example_clock 0)) eq_refl)
    as [(kp & ep & Hp1 & Hp2 & Hp3 & _) (kb & eb & Hb1 & Hb2 & Hb3 & _)].
  split.
  - exists kp, ep. split; [exact Hp1 | split; [exact Hp2 | exact (Hp3 ep)]].
  - exists kb, eb. split; [exact Hb1 | split; [exact Hb2 | exact (Hb3 eb)]].
Defined.

(** C2, as stated, fails on the Buddy server: Alice joins and sends "hi",
    the generation call fails, and the only event that follows the echo is
    an [error] sent to Alice's socket. *)
Lemma buddy_failure_emits_no_ai_message :
  trace_of BuddyServer example_clock alice_gets_no_reply =
    [(0, (ToOthers "sockA",
          user_joined "Alice" "Alice joined the chat" (toISOString 1700000000250)));
     (0, (ToAll, user_count 1));
     (1, (ToAll,
          user_message 1700000000500 "Alice" "hi" (toISOString 1700000000750) "user"));
     (1, (ToSocket "sockA", error "Failed to process message"))]
  ∧ Forall (λ x, is_ai_message x.2.2 = false)
      (trace_of BuddyServer example_clock alice_gets_no_reply).
Proof.
  assert (trace_of BuddyServer example_clock alice_gets_no_reply =
    [(0, (ToOthers "sockA",
          user_joined "Alice" "Alice joined the chat" (toISOString 1700000000250)));
     (0, (ToAll, user_count 1));
     (1, (ToAll,
          user_message 1700000000500 "Alice" "hi" (toISOString 1700000000750) "user"));
     (1, (ToSocket "sockA", error "Failed to process message"))]) as Heq
    by (vm_compute; reflexivity).
  split; [exact Heq|]. rewrite Heq. repeat constructor.
Qed.

(** C3.  In either server, after any run, a [message] of a registered
    participant is echoed in the very turn in which it is delivered: the
    [user_message], to all connections, is the one entry that turn adds to
    the trace, while the generation call is still pending.  Whatever is
    delivered afterwards, and whenever the call settles, every
    [ai_message] of that socket event stands later in the trace than this
    [user_message].  And in any run at all, an [ai_message] is in the
    trace only after a [user_message], emitted to all connections, of the
    socket event it answers. *)
Theorem user_message_before_ai_message v clk inputs socket_id d u later :
  connectedUsers (env_of v clk inputs) !! socket_id = Some u →
  let n := arrivals_of v clk inputs in
  let echo := (n, echo_of d (env_of v clk inputs)) in
  trace_of v clk (inputs ++ [FromSocket socket_id (In_message d)])
    = trace_of v clk inputs ++ [echo]
  ∧ trace_of v clk (inputs ++ FromSocket socket_id (In_message d) :: later)
      !! length (trace_of v clk inputs) = Some echo
  ∧ (∀ i tg ev,
      trace_of v clk (inputs ++ FromSocket socket_id (In_message d) :: later) !! i
        = Some (n, (tg, ev)) →
      is_ai_message ev = true →
      length (trace_of v clk inputs) < i)
  ∧ ∀ inputs' i m tg ev,
      trace_of v clk inputs' !! i = Some (m, (tg, ev)) →
      is_ai_message ev = true →
      ∃ j ev',
        j < i
        ∧ trace_of v clk inputs' !! j = Some (m, (ToAll, ev'))
        ∧ is_user_message ev' = true.
Proof.
  intros Hu. cbv zeta.
  assert (∀ inputs' i m tg ev,
            trace_of v clk inputs' !! i = Some (m, (tg, ev)) →
            is_ai_message ev = true →
            ∃ j ev',
              j < i
              ∧ trace_of v clk inputs' !! j = Some (m, (ToAll, ev'))
              ∧ is_user_message ev' = true) as H4.
  { intros inputs' i m tg ev Hi Hev.
    destruct ev as [| |id un msg ts ty| | | |]; try discriminate.
    destruct (reply_after_echo_of v clk inputs' i m tg _ id Hi eq_refl)
      as (j & tu & ta & u' & m' & ts' & ty' & Hlt & _ & Hj & _).
    eauto. }
  destruct v; simpl in Hu |- *; unfold Buddy.run, Plain.run in Hu |- *;
    rewrite !run_app.
  - destruct (echo_then_replies Buddy.on_message Buddy.on_settled Buddy.on_disconnect
                buddy_message_echoes _ socket_id d u later
                (tags_inv_run _ _ _ inputs _ (tags_inv_boot clk)) Hu)
      as (H1 & _ & _ & H2 & H3).
    split; [exact H1 | split; [exact H2 | split; [exact H3 | exact H4]]].
  - destruct (echo_then_replies Plain.on_message Plain.on_settled Plain.on_disconnect
                plain_message_echoes _ socket_id d u later
                (tags_inv_run _ _ _ inputs _ (tags_inv_boot clk)) Hu)
      as (H1 & _ & _ & H2 & H3).
    split; [exact H1 | split; [exact H2 | split; [exact H3 | exact H4]]].
Qed.

Lemma user_message_before_ai_message_witness :
  connectedUsers
    (env_of BuddyServer example_clock
       [FromSocket "sockA" (In_user_join (mkUserData "Alice"))]) !! "sockA"
    = Some (mkParticipant "Alice" (example_clock 0))
  ∧ trace_of BuddyServer example_clock alice_gets_reply !! 2
    = Some (1, (ToAll,
                user_message 1700000000500 "Alice" "hi"
                  (toISOString 1700000000750) "user"))
  ∧ trace_of BuddyServer example_clock alice_gets_reply !! 3
    = Some (1, (ToAll,
                ai_message 1700000001001 "AI Assistant" "hello"
                  (toISOString 1700000001250) "ai"))
  ∧ 2 < 3.
Proof.
  split; [vm_compute; reflexivity|].
  destruct (user_message_before_ai_message BuddyServer example_clock
              [FromSocket "sockA" (In_user_join (mkUserData "Alice"))]
              "sockA" (mkMessageData "hi" "Alice")
              (mkParticipant "Alice" (example_clock 0))
              [Settles 1 (Fulfilled "hello")]
              ltac:(vm_compute; reflexivity)) as (_ & H2 & H3 & _).
  split; [exact H2|].
  assert (trace_of BuddyServer example_clock alice_gets_reply !! 3
          = Some (1, (ToAll,
                      ai_message 1700000001001 "AI Assistant" "hello"
                        (toISOString 1700000001250) "ai"))) as H4
    by (vm_compute; reflexivity).
  split; [exact H4|].
  exact (H3 3 ToAll _ H4 eq_refl).
Defined.

(** C4 (as amended).  A [user_join] emits exactly one [user_count], to all
    connections, and so does the disconnect of a registered socket; the
    count is the size of the registry as the handler leaves it.  The
    disconnect of a socket that is not in the registry emits nothing and
    changes nothing. *)
Theorem user_count_reports_registry_size socket_id userData e :
  let j := on_user_join socket_id userData e in
  let db := Buddy.on_disconnect socket_id e in
  let dp := Plain.on_disconnect socket_id e in
  filter (λ x, is_user_count x.2) (emitted j)
    = [(ToAll, user_count (size (connectedUsers (state_of j))))]
  ∧ match connectedUsers e !! socket_id with
    | Some _ =>
        filter (λ x, is_user_count x.2) (emitted db)
          = [(ToAll, user_count (size (connectedUsers (state_of db))))]
        ∧ connectedUsers (state_of db) = delete socket_id (connectedUsers e)
        ∧ filter (λ x, is_user_count x.2) (emitted dp)
            = [(ToAll, user_count (size (connectedUsers (state_of dp))))]
        ∧ connectedUsers (state_of dp) = delete socket_id (connectedUsers e)
    | None =>
        emitted db = [] ∧ state_of db = e ∧ emitted dp = [] ∧ state_of dp = e
    end.
Proof.
  cbv zeta. rewrite on_user_join_eq, buddy_on_disconnect_eq, plain_on_disconnect_eq.
  split; [reflexivity|].
  by destruct (connectedUsers e !! socket_id).
Qed.

(** C4, as stated, fails: while Alice is online, the disconnect of a socket
    that never joined emits no [user_count] (it emits nothing). *)
Lemma disconnect_without_join_emits_no_user_count :
  connectedUsers alice_joined !! "sockB" = None
  ∧ emitted (Buddy.on_disconnect "sockB" alice_joined) = []
  ∧ ¬ ∃ x, x ∈ emitted (Buddy.on_disconnect "sockB" alice_joined)
           ∧ is_user_count x.2 = true.
Proof.
  assert (emitted (Buddy.on_disconnect "sockB" alice_joined) = []) as Heq
    by (vm_compute; reflexivity).
  split; [vm_compute; reflexivity|]. split; [exact Heq|].
  rewrite Heq. intros (x & Hx & _). by apply elem_of_nil in Hx.
Qed.

(** C5.  A [message] from a socket that is not in the registry makes both
    servers emit one [error] event, to that socket only, and nothing else;
    the state is unchanged and no handler is left suspended, so that no
    [user_message] or [ai_message] comes of it. *)
Theorem message_from_unregistered_socket socket_id d e :
  connectedUsers e !! socket_id = None →
  Buddy.on_message socket_id d e =
    (None, e, [(ToSocket socket_id, error "User not found. Please reconnect.")])
  ∧ Plain.on_message socket_id d e =
    (None, e, [(ToSocket socket_id, error "User not found. Please reconnect.")])
  ∧ (∀ c, delivered_to (ToSocket socket_id) c ↔ c = socket_id)
  ∧ (∀ p n t,
       Buddy.step (mkWorld e p n t) (FromSocket socket_id (In_message d)) =
         mkWorld e p (S n)
           (t ++ [(n, (ToSocket socket_id, error "User not found. Please reconnect."))]))
  ∧ (∀ p n t,
       Plain.step (mkWorld e p n t) (FromSocket socket_id (In_message d)) =
         mkWorld e p (S n)
           (t ++ [(n, (ToSocket socket_id, error "User not found. Please reconnect."))])).
Proof.
  intros H.
  pose proof (buddy_on_message_unregistered socket_id d e H) as Hb.
  pose proof (plain_on_message_unregistered socket_id d e H) as Hp.
  repeat split; try done.
  - intros p n t. unfold Buddy.step, step. simpl. by rewrite Hb.
  - intros p n t. unfold Plain.step, step. simpl. by rewrite Hp.
Qed.

Lemma message_from_unregistered_socket_witness :
  connectedUsers (initial example_clock) !! "sockA" = None
  ∧ Buddy.on_message "sockA" (mkMessageData "hi" "Alice") (initial example_clock) =
      (None, initial example_clock,
       [(ToSocket "sockA", error "User not found. Please reconnect.")])
  ∧ Plain.on_message "sockA" (mkMessageData "hi" "Alice") (initial example_clock) =
      (None, initial example_clock,
       [(ToSocket "sockA", error "User not found. Please reconnect.")]).
Proof.
  split; [reflexivity|].
  destruct (message_from_unregistered_socket "sockA" (mkMessageData "hi" "Alice")
              (initial example_clock) eq_refl) as (Hb & Hp & _).
  split; [exact Hb | exact Hp].
Defined.

(** C6.  A [typing] event changes no state.  From a socket that is not in
    the registry it emits nothing, neither [user_typing] nor [error]; from
    a registered socket it emits one [user_typing], with the registered
    username, to every connection but the sender. *)
Theorem typing_is_relayed_to_the_others socket_id data e :
  on_typing socket_id data e =
    (tt, e,
     match connectedUsers e !! socket_id with
     | Some user =>
         [(ToOthers socket_id, user_typing (username user) (isTyping data))]
     | None => []
     end)
  ∧ ∀ c, delivered_to (ToOthers socket_id) c ↔ c ≠ socket_id.
Proof. split; [apply on_typing_eq | done]. Qed.



(** With a clock that never goes back, the reply's id is above the id of
    the message it answers. *)
Corollary ai_message_id_above_user_message_id v clk inputs i n tg id u m ts ty :
  (∀ a b, a ≤ b → (clk a ≤ clk b)%Z) →
  trace_of v clk inputs !! i = Some (n, (tg, ai_message id u m ts ty)) →
  ∃ j id_u u' m' ts' ty',
    j < i
    ∧ trace_of v clk inputs !! j = Some (n, (ToAll, user_message id_u u' m' ts' ty'))
    ∧ (id_u + 1 ≤ id)%Z.
Proof.
  intros Hmono Hi.
  destruct (reply_after_echo_of v clk inputs i n tg _ id Hi eq_refl)
    as (j & tu & ta & u' & m' & ts' & ty' & Hlt & Ht & Hj & ->).
  exists j, (clk tu), u', m', ts', ty'. repeat split; [done..|].
  specialize (Hmono tu ta). lia.
Qed.


(** C9.  The claim holds for a [user_join] that carries a payload: the
    listener returns, it stores the participant made of the given username
    and the clock's reading under the socket id, whatever was stored there
    before, and leaves the other entries alone; a second [user_join] of
    the socket leaves only the second participant; it emits [user_joined]
    to the other connections and then [user_count] to all of them, and
    nothing else.  A [user_join] without a payload makes the listener
    throw, and the process exits with code 1. *)
Theorem user_join_registers_the_participant socket_id userData userData' e :
  let r := on_user_join socket_id userData e in
  let p := mkParticipant (ud_username userData) (clock e (ticks e)) in
  user_join_listener socket_id None e = Exited 1
  ∧ user_join_listener socket_id (Some userData) e = Returned r
  ∧ connectedUsers (state_of r) = <[socket_id := p]> (connectedUsers e)
  ∧ connectedUsers (state_of r) !! socket_id = Some p
  ∧ delete socket_id (connectedUsers (state_of r)) = delete socket_id (connectedUsers e)
  ∧ connectedUsers (state_of (on_user_join socket_id userData' (state_of r)))
      = <[socket_id := mkParticipant (ud_username userData')
                         (clock e (S (S (ticks e))))]> (connectedUsers e)
  ∧ userMemory (state_of r) = userMemory e
  ∧ arrays (state_of r) = arrays e
  ∧ emitted r =
      [(ToOthers socket_id,
        user_joined (ud_username userData)
          (ud_username userData +:+ " joined the chat")
          (toISOString (clock e (S (ticks e)))));
       (ToAll, user_count (size (connectedUsers (state_of r))))]
  ∧ (∀ c, delivered_to (ToOthers socket_id) c ↔ c ≠ socket_id)
  ∧ (∀ c, delivered_to ToAll c).
Proof.
  cbv zeta. split; [reflexivity|]. split; [reflexivity|].
  rewrite !on_user_join_eq. unfold state_of, emitted. simpl.
  repeat split; try done.
  - apply lookup_insert_eq.
  - apply delete_insert_eq.
  - apply insert_insert_eq.
Qed.

(** C10.  The username of a [user_message] is the one in the payload of
    the [message] event, and some payload makes it differ from the
    username the socket registered; [user_typing] and [user_left] carry
    the registered username. *)
Theorem user_message_username_is_from_payload socket_id d data e u :
  connectedUsers e !! socket_id = Some u →
  emitted (Buddy.on_message socket_id d e) =
    [(ToAll, user_message (clock e (ticks e)) (md_username d) (md_message d)
               (toISOString (clock e (S (ticks e)))) "user")]
  ∧ emitted (Plain.on_message socket_id d e) =
    [(ToAll, user_message (clock e (ticks e)) (md_username d) (md_message d)
               (toISOString (clock e (S (ticks e)))) "user")]
  ∧ (∃ d', md_username d' ≠ username u
       ∧ emitted (Buddy.on_message socket_id d' e) =
           [(ToAll, user_message (clock e (ticks e)) (md_username d') (md_message d')
                      (toISOString (clock e (S (ticks e)))) "user")])
  ∧ emitted (on_typing socket_id data e) =
      [(ToOthers socket_id, user_typing (username u) (isTyping data))]
  ∧ head (emitted (Buddy.on_disconnect socket_id e)) =
      Some (ToOthers socket_id,
            user_left (username u) (username u +:+ " left the chat")
              (toISOString (clock e (ticks e))))
  ∧ head (emitted (Plain.on_disconnect socket_id e)) =
      Some (ToOthers socket_id,
            user_left (username u) (username u +:+ " left the chat")
              (toISOString (clock e (ticks e)))).
Proof.
  intros H.
  assert (Hb : ∀ d0, emitted (Buddy.on_message socket_id d0 e) =
    [(ToAll, user_message (clock e (ticks e)) (md_username d0) (md_message d0)
               (toISOString (clock e (S (ticks e)))) "user")]).
  { intros d0. destruct (buddy_on_message_echo socket_id d0 e u H)
      as (k & e1 & -> & _). reflexivity. }
  split; [apply Hb|].
  split; [by rewrite (plain_on_message_registered _ _ _ _ H)|].
  split.
  { exists (mkMessageData "hi" (if decide (username u = "") then "x" else "")).
    split; [|apply Hb]. simpl. by case_decide as Hu; [rewrite Hu|]. }
  rewrite on_typing_eq, buddy_on_disconnect_eq, plain_on_disconnect_eq, H.
  done.
Qed.

Lemma user_message_username_is_from_payload_witness :
  connectedUsers alice_joined !! "sockA"
    = Some (mkParticipant "Alice" (example_clock 0))
  ∧ emitted (Buddy.on_message "sockA" (mkMessageData "hi" "Mallory") alice_joined) =
      [(ToAll, user_message (example_clock 2) "Mallory" "hi"
                 (toISOString (example_clock 3)) "user")]
  ∧ "Mallory" ≠ "Alice"
  ∧ emitted (on_typing "sockA" (mkTypingData true) alice_joined) =
      [(ToOthers "sockA", user_typing "Alice" true)].
Proof.
  split; [reflexivity|].
  destruct (user_message_username_is_from_payload "sockA"
              (mkMessageData "hi" "Mallory") (mkTypingData true) alice_joined
              (mkParticipant "Alice" (example_clock 0)) eq_refl)
    as (Hmsg & _ & _ & Htyping & _).
  split; [exact Hmsg|]. split; [done | exact Htyping].
Defined.

(** The state a [message] of a registered socket leaves, written out. *)
Lemma buddy_on_message_state socket_id d e u :
  connectedUsers e !! socket_id = Some u →
  let a := default (length (arrays e)) (userMemory e !! socket_id) in
  let arrays0 :=
    match userMemory e !! socket_id with Some _ => arrays e | None => arrays e ++ [[]] end in
  let arrays1 := alter (λ l, l ++ [mkTurn role_user (md_message d)]) a arrays0 in
  let arrays2 :=
    if bool_decide (10 < length (default [] (arrays1 !! a)))
    then alter (drop 1) a arrays1 else arrays1 in
  Buddy.on_message socket_id d e =
    (Some (Buddy.mkSuspended socket_id a
             (Buddy.prompt (historyString (default [] (arrays2 !! a))))),
     mkEnv (connectedUsers e)
           (match userMemory e !! socket_id with
            | Some _ => userMemory e
            | None => <[socket_id := a]> (userMemory e)
            end)
           arrays2 (clock e) (S (S (ticks e))),
     [(ToAll, user_message (clock e (ticks e)) (md_username d) (md_message d)
                (toISOString (clock e (S (ticks e)))) "user")]).
Proof.
  intros H. run_handler. rewrite H. simpl.
  destruct (userMemory e !! socket_id) as [a|] eqn:Hm; simpl.
  - rewrite Hm. simpl. by case_bool_decide.
  - rewrite lookup_insert_eq. simpl. by case_bool_decide.
Qed.

Lemma push_cap_ne t a arrs b : b ≠ a → push_cap t a arrs !! b = arrs !! b.
Proof.
  intros Hne. unfold push_cap. case_bool_decide;
    by rewrite ?list_lookup_alter_ne by done.
Qed.

Lemma push_cap_eq t a arrs h :
  arrs !! a = Some h → push_cap t a arrs !! a = Some (cap (h ++ [t])).
Proof.
  intros Hh. unfold push_cap, cap. rewrite list_lookup_alter_eq, Hh. simpl.
  case_bool_decide. all: rewrite ?list_lookup_alter_eq, ?Hh. all: done.
Qed.

Lemma push_cap_is_Some t a arrs b :
  is_Some (push_cap t a arrs !! b) ↔ is_Some (arrs !! b).
Proof.
  unfold push_cap. case_bool_decide; by rewrite !is_Some_alter_list.
Qed.

Lemma buddy_on_message_state' socket_id d e u :
  connectedUsers e !! socket_id = Some u →
  let a := default (length (arrays e)) (userMemory e !! socket_id) in
  let arrays0 :=
    match userMemory e !! socket_id with Some _ => arrays e | None => arrays e ++ [[]] end in
  let arrays2 := push_cap (mkTurn role_user (md_message d)) a arrays0 in
  Buddy.on_message socket_id d e =
    (Some (Buddy.mkSuspended socket_id a
             (Buddy.prompt (historyString (default [] (arrays2 !! a))))),
     mkEnv (connectedUsers e)
           (match userMemory e !! socket_id with
            | Some _ => userMemory e
            | None => <[socket_id := a]> (userMemory e)
            end)
           arrays2 (clock e) (S (S (ticks e))),
     [(ToAll, user_message (clock e (ticks e)) (md_username d) (md_message d)
                (toISOString (clock e (S (ticks e)))) "user")]).
Proof. apply buddy_on_message_state. Qed.

Lemma memory_inv_boot clk : memory_inv (boot clk).
Proof.
  split; simpl.
  - intros s a H. by rewrite lookup_empty in H.
  - intros s a H. simpl in H. by rewrite lookup_empty in H.
  - intros s1 s2 a H. simpl in H. by rewrite lookup_empty in H.
  - intros n k H. by rewrite lookup_empty in H.
  - intros n k s H. by rewrite lookup_empty in H.
Qed.

Lemma memory_inv_step w i : memory_inv w → memory_inv (Buddy.step w i).
Proof.
  intros [Hreg Hwf Hsep Halloc Hown].
  destruct i as [s ev | n r]; unfold Buddy.step, step.
  - destruct ev as [d|d|d|]; unfold dispatch.
    + (* user_join *)
      unfold mbind, M_bind, mret, M_ret. rewrite on_user_join_eq. simpl.
      split; unfold wf, separate; simpl; auto.
      intros s' a Hs'. destruct (decide (s = s')) as [->|Hne].
      * rewrite lookup_insert_eq. eauto.
      * rewrite lookup_insert_ne by done. eauto.
    + (* message *)
      destruct (connectedUsers (env w) !! s) as [u|] eqn:Hu.
      2:{ rewrite (buddy_on_message_unregistered _ _ _ Hu). simpl.
          split; unfold wf, separate; simpl; auto. }
      rewrite (buddy_on_message_state' _ d _ _ Hu). simpl.
      destruct (userMemory (env w) !! s) as [a|] eqn:Hm; simpl.
      * (* the socket has an array already *)
        split; unfold wf, separate; simpl.
        -- auto.
        -- intros s' b Hs'. rewrite push_cap_is_Some. eauto.
        -- auto.
        -- intros n k Hn. rewrite push_cap_is_Some.
           destruct (decide (arrivals w = n)) as [<-|Hne].
           ++ rewrite lookup_insert_eq in Hn. injection Hn as <-. simpl. eauto.
           ++ rewrite lookup_insert_ne in Hn by done. eauto.
        -- intros n k s' Hn Hs'.
           destruct (decide (arrivals w = n)) as [<-|Hne].
           ++ rewrite lookup_insert_eq in Hn. injection Hn as <-. simpl in *. eauto.
           ++ rewrite lookup_insert_ne in Hn by done. eauto.
      * (* a fresh array *)
        assert (Hfresh : ∀ s' b, userMemory (env w) !! s' = Some b →
                                 b < length (arrays (env w))).
        { intros s' b Hs'. by apply lookup_lt_is_Some, (Hwf s'). }
        assert (Hnew : ∀ s' b,
                  <[s:=length (arrays (env w))]> (userMemory (env w)) !! s' = Some b →
                  (s' = s ∧ b = length (arrays (env w)))
                  ∨ (s' ≠ s ∧ userMemory (env w) !! s' = Some b)).
        { intros s' b. destruct (decide (s = s')) as [->|Hne].
          - rewrite lookup_insert_eq. intros [= <-]. by left.
          - rewrite lookup_insert_ne by done. intros ?. right. by split. }
        split; unfold wf, separate; simpl.
        -- intros s' b [[-> _]|[_ Hs']]%Hnew; eauto.
        -- intros s' b Hs'. rewrite push_cap_is_Some, lookup_lt_is_Some, length_app.
           simpl. apply Hnew in Hs' as [[_ ->]|[_ Hs']]; [lia|].
           apply Hfresh in Hs'. lia.
        -- intros s1 s2 b [[-> ->]|[? H1]]%Hnew [[-> Hb]|[? H2]]%Hnew; try done.
           ++ apply Hfresh in H2. lia.
           ++ apply Hfresh in H1. lia.
           ++ eauto.
        -- intros n k Hn. rewrite push_cap_is_Some, lookup_lt_is_Some, length_app.
           simpl.
           destruct (decide (arrivals w = n)) as [<-|Hne].
           ++ rewrite lookup_insert_eq in Hn. injection Hn as <-. simpl. lia.
           ++ rewrite lookup_insert_ne in Hn by done.
              apply Halloc, lookup_lt_is_Some in Hn. lia.
        -- intros n k s' Hn [[-> Hb]|[Hne Hs']]%Hnew.
           ++ destruct (decide (arrivals w = n)) as [<-|Hne].
              ** rewrite lookup_insert_eq in Hn. by injection Hn as <-.
              ** rewrite lookup_insert_ne in Hn by done.
                 apply Halloc, lookup_lt_is_Some in Hn. lia.
           ++ destruct (decide (arrivals w = n)) as [<-|Hne'].
              ** rewrite lookup_insert_eq in Hn. injection Hn as <-. simpl in *.
                 apply Hfresh in Hs'. lia.
              ** rewrite lookup_insert_ne in Hn by done. eauto.
    + (* typing *)
      unfold mbind, M_bind, mret, M_ret. rewrite on_typing_eq. simpl.
      by split.
    + (* disconnect *)
      unfold mbind, M_bind, mret, M_ret. rewrite buddy_on_disconnect_eq.
      destruct (connectedUsers (env w) !! s) as [u|] eqn:Hu; simpl; [|by split].
      split; unfold wf, separate; simpl.
      * intros s' a [Hne Hs']%lookup_delete_Some.
        rewrite lookup_delete_ne by done. eauto.
      * intros s' a [Hne Hs']%lookup_delete_Some. eauto.
      * intros s1 s2 a [_ H1]%lookup_delete_Some [_ H2]%lookup_delete_Some. eauto.
      * auto.
      * intros n k s' Hn [_ Hs']%lookup_delete_Some. eauto.
  - destruct (pending w !! n) as [k|] eqn:Hn; [|by split].
    rewrite buddy_on_settled_eq. destruct r as [a|]; simpl.
    + split; unfold wf, separate; simpl.
      * auto.
      * intros s' b Hs'. rewrite is_Some_alter_list. eauto.
      * auto.
      * intros m k' [_ Hm]%lookup_delete_Some. rewrite is_Some_alter_list. eauto.
      * intros m k' s' [_ Hm]%lookup_delete_Some. eauto.
    + split; unfold wf, separate; simpl; auto.
      * intros m k' [_ Hm]%lookup_delete_Some. eauto.
      * intros m k' s' [_ Hm]%lookup_delete_Some. eauto.
Qed.

Lemma memory_inv_run inputs : ∀ w, memory_inv w → memory_inv (Buddy.run w inputs).
Proof.
  induction inputs as [|i inputs IH]; intros w Hw; [done|].
  apply IH. by apply memory_inv_step.
Qed.

Lemma context_unchanged e e' B :
  userMemory e' !! B = userMemory e !! B →
  (∀ b, userMemory e !! B = Some b → arrays e' !! b = arrays e !! b) →
  Buddy.context e' B = Buddy.context e B.
Proof.
  intros Hm Ha. unfold Buddy.context. rewrite Hm.
  destruct (userMemory e !! B) as [b|]; simpl; auto.
Qed.

Lemma memory_inv_isolation w i B :
  memory_inv w → concerns w i ≠ Some B →
  Buddy.context (env (Buddy.step w i)) B = Buddy.context (env w) B.
Proof.
  intros [Hreg Hwf Hsep Halloc Hown] Hc.
  destruct i as [s ev | n r]; unfold Buddy.step, step; simpl in Hc.
  - assert (s ≠ B) as Hne by congruence. clear Hc.
    destruct ev as [d|d|d|]; unfold dispatch.
    + unfold mbind, M_bind, mret, M_ret. by rewrite on_user_join_eq.
    + destruct (connectedUsers (env w) !! s) as [u|] eqn:Hu.
      2:{ by rewrite (buddy_on_message_unregistered _ _ _ Hu). }
      rewrite (buddy_on_message_state' _ d _ _ Hu). simpl.
      destruct (userMemory (env w) !! s) as [a|] eqn:Hm; simpl;
        apply context_unchanged; simpl; auto.
      * intros b Hb. apply push_cap_ne. intros ->. apply Hne. eauto.
      * by rewrite lookup_insert_ne.
      * intros b Hb. rewrite push_cap_ne.
        -- apply lookup_app_l. by apply lookup_lt_is_Some, (Hwf B).
        -- apply (Hwf B), lookup_lt_is_Some in Hb. lia.
    + unfold mbind, M_bind, mret, M_ret. by rewrite on_typing_eq.
    + unfold mbind, M_bind, mret, M_ret. rewrite buddy_on_disconnect_eq.
      destruct (connectedUsers (env w) !! s); simpl; [|done].
      apply context_unchanged; simpl; auto. by rewrite lookup_delete_ne.
  - destruct (pending w !! n) as [k|] eqn:Hn; [|done]. simpl in Hc.
    rewrite buddy_on_settled_eq. destruct r as [a|]; simpl; [|done].
    apply context_unchanged; simpl; auto.
    intros b Hb. apply list_lookup_alter_ne. intros Heq. subst b.
    apply Hc. f_equal. symmetry. eauto.
Qed.
(** ** Properties of whole traces *)

Lemma bind_ret_effect {A B} (m : M A) (b : B) e :
  state_of ((m ≫= λ _, mret b) e) = state_of (m e)
  ∧ emitted ((m ≫= λ _, mret b) e) = emitted (m e).
Proof.
  unfold mbind, M_bind, mret, M_ret, state_of, emitted.
  destruct (m e) as [[a e1] o1]. simpl. by rewrite app_nil_r.
Qed.

Section Trace.

Context {K : Type}.
Variable on_message : string → MessageData → M (option K).
Variable on_settled : K → Settled → M unit.
Variable on_disconnect : string → M unit.

(** A property of what a handler does: the state before, the emissions,
    the state after. *)
Variable Q : Env → list Emission → Env → Prop.

Definition obeys {A} (m : M A) : Prop :=
  ∀ e, Q e (emitted (m e)) (state_of (m e)).

Hypothesis join_obeys : ∀ s d, obeys (on_user_join s d).
Hypothesis typing_obeys : ∀ s d, obeys (on_typing s d).
Hypothesis message_obeys : ∀ s d, obeys (on_message s d).
Hypothesis disconnect_obeys : ∀ s, obeys (on_disconnect s).
Hypothesis settled_obeys : ∀ k r, obeys (on_settled k r).

Local Abbreviation step := (step on_message on_settled on_disconnect).
Local Abbreviation run := (run on_message on_settled on_disconnect).
Local Abbreviation dispatch := (dispatch on_message on_disconnect).

Lemma dispatch_obeys s ev : obeys (dispatch s ev).
Proof.
  intros e. destruct ev as [d|d|d|]; unfold dispatch.
  - destruct (bind_ret_effect (on_user_join s d) (@None K) e) as [-> ->].
    apply join_obeys.
  - apply message_obeys.
  - destruct (bind_ret_effect (on_typing s d) (@None K) e) as [-> ->].
    apply typing_obeys.
  - destruct (bind_ret_effect (on_disconnect s) (@None K) e) as [-> ->].
    apply disconnect_obeys.
Qed.

(** A turn of the event loop does nothing, or runs one handler. *)
Lemma step_effect w i :
  step w i = w
  ∨ ∃ n out,
      Q (env w) out (env (step w i))
      ∧ trace (step w i) = trace w ++ (pair n <$> out).
Proof.
  destruct i as [s ev | n r]; simpl.
  - right. pose proof (dispatch_obeys s ev (env w)) as H.
    destruct (dispatch s ev (env w)) as [[k e] out].
    exists (arrivals w), out. by split.
  - destruct (pending w !! n) as [k|]; [|by left].
    right. pose proof (settled_obeys k r (env w)) as H.
    destruct (on_settled k r (env w)) as [[[] e] out].
    exists n, out. by split.
Qed.

(** What holds at boot and is kept by every handler holds after every run. *)
Lemma run_keeps (I : Env → list (nat * Emission) → Prop) clk inputs :
  I (initial clk) [] →
  (∀ e t n out e', I e t → Q e out e' → I e' (t ++ (pair n <$> out))) →
  I (env (run (boot clk) inputs)) (trace (run (boot clk) inputs)).
Proof.
  intros H0 Hstep.
  assert (∀ w, I (env w) (trace w) → I (env (run w inputs)) (trace (run w inputs)))
    as Hrun.
  { induction inputs as [|i inputs IH]; intros w Hw; [done|].
    simpl. apply IH.
    destruct (step_effect w i) as [-> | (n & out & HQ & ->)]; [done|].
    by apply (Hstep (env w)). }
  by apply Hrun.
Qed.

End Trace.

(** *** Addressing *)

Lemma join_well_addressed s d : well_addressed (on_user_join s d).
Proof. intros e. rewrite on_user_join_eq. unfold emitted. simpl. by repeat constructor. Qed.

Lemma typing_well_addressed s d : well_addressed (on_typing s d).
Proof.
  intros e. rewrite on_typing_eq. unfold emitted. simpl.
  destruct (connectedUsers e !! s); by repeat constructor.
Qed.

Lemma buddy_message_well_addressed s d : well_addressed (Buddy.on_message s d).
Proof.
  intros e. pose proof (buddy_on_message_cases s d e) as H.
  message_cases H; by repeat constructor.
Qed.

Lemma plain_message_well_addressed s d : well_addressed (Plain.on_message s d).
Proof.
  intros e. pose proof (plain_on_message_cases s d e) as H.
  message_cases H; by repeat constructor.
Qed.

Lemma buddy_disconnect_well_addressed s : well_addressed (Buddy.on_disconnect s).
Proof.
  intros e. rewrite buddy_on_disconnect_eq. unfold emitted.
  destruct (connectedUsers e !! s); simpl; by repeat constructor.
Qed.

Lemma plain_disconnect_well_addressed s : well_addressed (Plain.on_disconnect s).
Proof.
  intros e. rewrite plain_on_disconnect_eq. unfold emitted.
  destruct (connectedUsers e !! s); simpl; by repeat constructor.
Qed.

Lemma buddy_settled_well_addressed k r : well_addressed (Buddy.on_settled k r).
Proof.
  intros e. rewrite buddy_on_settled_eq. unfold emitted.
  destruct r; simpl; by repeat constructor.
Qed.

Lemma plain_settled_well_addressed k r : well_addressed (Plain.on_settled k r).
Proof.
  intros e. rewrite plain_on_settled_eq. unfold emitted.
  destruct r; simpl; by repeat constructor.
Qed.

Lemma trace_well_addressed v clk inputs :
  Forall (λ x, addressed_as_expected x.2 = true) (trace_of v clk inputs).
Proof.
  assert (Hstep : ∀ (e : Env) (t : list (nat * Emission)) (n : nat) out (e' : Env),
            Forall (λ x, addressed_as_expected x.2 = true) t →
            Forall (λ x, addressed_as_expected x = true) out →
            Forall (λ x, addressed_as_expected x.2 = true) (t ++ (pair n <$> out))).
  { intros e t n out e' Ht Hout. apply Forall_app. split; [done|].
    by apply Forall_fmap. }
  destruct v; simpl.
  - apply (run_keeps Buddy.on_message Buddy.on_settled Buddy.on_disconnect
             (λ _ out _, Forall (λ x, addressed_as_expected x = true) out)
             ltac:(intros s d e; apply join_well_addressed)
             ltac:(intros s d e; apply typing_well_addressed)
             ltac:(intros s d e; apply buddy_message_well_addressed)
             ltac:(intros s e; apply buddy_disconnect_well_addressed)
             ltac:(intros k r e; apply buddy_settled_well_addressed)
             (λ _ t, Forall (λ x, addressed_as_expected x.2 = true) t));
      [constructor | exact Hstep].
  - apply (run_keeps Plain.on_message Plain.on_settled Plain.on_disconnect
             (λ _ out _, Forall (λ x, addressed_as_expected x = true) out)
             ltac:(intros s d e; apply join_well_addressed)
             ltac:(intros s d e; apply typing_well_addressed)
             ltac:(intros s d e; apply plain_message_well_addressed)
             ltac:(intros s e; apply plain_disconnect_well_addressed)
             ltac:(intros k r e; apply plain_settled_well_addressed)
             (λ _ t, Forall (λ x, addressed_as_expected x.2 = true) t));
      [constructor | exact Hstep].
Qed.

(** *** Counting *)

Lemma join_counted s d : counted (on_user_join s d).
Proof. intros e. by rewrite on_user_join_eq. Qed.

Lemma typing_counted s d : counted (on_typing s d).
Proof.
  intros e. rewrite on_typing_eq. unfold emitted, state_of. simpl.
  by destruct (connectedUsers e !! s).
Qed.

Lemma buddy_message_counted s d : counted (Buddy.on_message s d).
Proof.
  intros e. pose proof (buddy_on_message_cases s d e) as H.
  message_cases H; [done | by rewrite Hcu].
Qed.

Lemma plain_message_counted s d : counted (Plain.on_message s d).
Proof.
  intros e. pose proof (plain_on_message_cases s d e) as H.
  message_cases H; [done | by rewrite Hcu].
Qed.

Lemma buddy_disconnect_counted s : counted (Buddy.on_disconnect s).
Proof.
  intros e. rewrite buddy_on_disconnect_eq.
  by destruct (connectedUsers e !! s).
Qed.

Lemma plain_disconnect_counted s : counted (Plain.on_disconnect s).
Proof.
  intros e. rewrite plain_on_disconnect_eq.
  by destruct (connectedUsers e !! s).
Qed.

Lemma buddy_settled_counted k r : counted (Buddy.on_settled k r).
Proof. intros e. rewrite buddy_on_settled_eq. by destruct r. Qed.

Lemma plain_settled_counted k r : counted (Plain.on_settled k r).
Proof. intros e. rewrite plain_on_settled_eq. by destruct r. Qed.

Lemma counts_app l1 l2 : counts (l1 ++ l2) = counts l1 ++ counts l2.
Proof. apply omap_app. Qed.

Lemma default_last_app (n : nat) l1 l2 :
  default n (last (l1 ++ l2)) = default (default n (last l1)) (last l2).
Proof. rewrite last_app. by destruct (last l2). Qed.

Lemma fmap_snd_pair {A B} (n : A) (l : list B) : (pair n <$> l).*2 = l.
Proof. induction l as [|x l IH]; [done|]. by rewrite !fmap_cons, IH. Qed.

(** The last [user_count] of the trace is the size of the registry. *)
Lemma last_count_is_registry_size v clk inputs :
  default 0 (last (counts (trace_of v clk inputs).*2.*2))
  = size (connectedUsers (env_of v clk inputs)).
Proof.
  assert (Hstep : ∀ (e : Env) (t : list (nat * Emission)) (n : nat) out (e' : Env),
            default 0 (last (counts t.*2.*2)) = size (connectedUsers e) →
            default (size (connectedUsers e)) (last (counts out.*2))
              = size (connectedUsers e') →
            default 0 (last (counts (t ++ (pair n <$> out)).*2.*2))
              = size (connectedUsers e')).
  { intros e t n out e' Ht Hout.
    by rewrite !fmap_app, counts_app, default_last_app, Ht, fmap_snd_pair. }
  destruct v; simpl.
  - apply (run_keeps Buddy.on_message Buddy.on_settled Buddy.on_disconnect
             (λ e out e', default (size (connectedUsers e)) (last (counts out.*2))
                          = size (connectedUsers e'))
             ltac:(intros s d e; apply join_counted)
             ltac:(intros s d e; apply typing_counted)
             ltac:(intros s d e; apply buddy_message_counted)
             ltac:(intros s e; apply buddy_disconnect_counted)
             ltac:(intros k r e; apply buddy_settled_counted)
             (λ e t, default 0 (last (counts t.*2.*2)) = size (connectedUsers e)));
      [reflexivity | exact Hstep].
  - apply (run_keeps Plain.on_message Plain.on_settled Plain.on_disconnect
             (λ e out e', default (size (connectedUsers e)) (last (counts out.*2))
                          = size (connectedUsers e'))
             ltac:(intros s d e; apply join_counted)
             ltac:(intros s d e; apply typing_counted)
             ltac:(intros s d e; apply plain_message_counted)
             ltac:(intros s e; apply plain_disconnect_counted)
             ltac:(intros k r e; apply plain_settled_counted)
             (λ e t, default 0 (last (counts t.*2.*2)) = size (connectedUsers e)));
      [reflexivity | exact Hstep].
Qed.



(** ** Conversations whose replies may fail *)

Lemma buddy_exchange_with (w : World Buddy.Suspended) socket_id u p x :
  wf (env w) →
  connectedUsers (env w) !! socket_id = Some p →
  let w' := Buddy.run w
    [FromSocket socket_id (In_message (mkMessageData x.1 u));
     Settles (arrivals w) x.2] in
  wf (env w')
  ∧ connectedUsers (env w') = connectedUsers (env w)
  ∧ arrivals w' = S (arrivals w)
  ∧ Buddy.context (env w') socket_id
      = Some (roll_with (default [] (Buddy.context (env w) socket_id)) x).
Proof.
  intros Hwf Hp.
  destruct (buddy_on_message_registered socket_id (mkMessageData x.1 u) _ _ Hp Hwf)
    as (k & e' & Heq & Hcu & Hclk & Htk & Hwf' & Hks & Hum & Hctx & Hpr).
  unfold Buddy.run, run. simpl. unfold dispatch. rewrite Heq. simpl.
  rewrite lookup_insert_eq. rewrite buddy_on_settled_eq.
  unfold roll_with. destruct x as [m [a|]]; simpl in *.
  - repeat split; try done.
    + intros s b Hs. simpl in *. rewrite is_Some_alter_list. eauto.
    + unfold Buddy.context in *. simpl. rewrite Hum in *. simpl in *.
      by rewrite list_lookup_alter_eq, Hctx.
  - rewrite app_nil_r. by repeat split.
Qed.

Lemma run_dialogue socket_id u p xs :
  ∀ w : World Buddy.Suspended,
  wf (env w) →
  connectedUsers (env w) !! socket_id = Some p →
  Buddy.context (env (Buddy.run w (dialogue socket_id u (arrivals w) xs))) socket_id
  = match xs with
    | [] => Buddy.context (env w) socket_id
    | _ => Some (fold_left roll_with xs (default [] (Buddy.context (env w) socket_id)))
    end.
Proof.
  induction xs as [|x xs IH]; intros w Hwf Hp; [done|].
  destruct (buddy_exchange_with w socket_id u p x Hwf Hp) as (Hwf' & Hcu & Har & Hctx).
  cbn [dialogue].
  change (Buddy.run w (?a :: ?b :: ?l)) with (Buddy.run (Buddy.run w [a; b]) l).
  rewrite <- Har. rewrite IH; [|done|by rewrite Hcu].
  rewrite Hctx. simpl. by destruct xs.
Qed.

Lemma buddy_context_after_dialogue clk socket_id u xs :
  default []
    (Buddy.context
       (env (Buddy.run (boot clk)
               (FromSocket socket_id (In_user_join (mkUserData u))
                :: dialogue socket_id u 1 xs)))
       socket_id)
  = fold_left roll_with xs [].
Proof.
  change (Buddy.run ?w (?a :: ?l)) with (Buddy.run (Buddy.run w [a]) l).
  pose proof (run_dialogue socket_id u (mkParticipant u (clk 0)) xs
                (Buddy.run (boot clk)
                   [FromSocket socket_id (In_user_join (mkUserData u))])) as H.
  simpl arrivals in H. rewrite H; clear H.
  - assert (Buddy.context (env (Buddy.run (boot clk)
              [FromSocket socket_id (In_user_join (mkUserData u))])) socket_id = None)
      as -> by (unfold Buddy.context; simpl; by rewrite lookup_empty).
    by destruct xs.
  - intros s a H. simpl in H. by rewrite lookup_empty in H.
  - simpl. by rewrite lookup_insert_eq.
Qed.

Lemma length_cap_snoc h t : length (cap (h ++ [t])) ≤ length h `max` 10.
Proof.
  unfold cap. rewrite length_app. simpl.
  case_bool_decide; rewrite ?length_drop, ?length_app; simpl; lia.
Qed.

Lemma fulfilled_snoc xs x :
  fulfilled (xs ++ [x]) = fulfilled xs + length (reply_turn x.2).
Proof.
  unfold fulfilled. rewrite filter_app, length_app. f_equal.
  rewrite filter_cons, filter_nil. by destruct x as [m [a|]].
Qed.

Lemma length_fold_roll_with xs :
  length (fold_left roll_with xs []) ≤ 10 + fulfilled xs.
Proof.
  induction xs as [|x xs IH] using rev_ind; [simpl; lia|].
  rewrite fold_left_app, fulfilled_snoc. simpl. unfold roll_with at 1.
  rewrite length_app.
  pose proof (length_cap_snoc (fold_left roll_with xs []) (mkTurn role_user x.1)).
  lia.
Qed.

Lemma fold_roll_with_rejected ms :
  fold_left roll_with ((λ m, (m, Rejected)) <$> ms) []
  = drop (length ms - 10) (mkTurn role_user <$> ms).
Proof.
  induction ms as [|m ms IH] using rev_ind; [done|].
  rewrite !fmap_app, fold_left_app, IH. clear IH. simpl.
  unfold roll_with. simpl. rewrite app_nil_r, length_app. simpl.
  unfold cap. rewrite length_app, length_drop, length_fmap. simpl.
  case_bool_decide.
  - rewrite (drop_app_le (drop _ _)) by (rewrite length_drop, length_fmap; lia).
    rewrite drop_drop, drop_app_le by (rewrite length_fmap; lia).
    by replace (length ms - 10 + 1) with (length ms + 1 - 10) by lia.
  - replace (length ms + 1 - 10) with 0 by lia.
    by replace (length ms - 10) with 0 by lia.
Qed.

(** ** Further properties of the servers *)

(** X1.  In every run of the Buddy server, a socket that has a rolling
    memory is registered, its array exists, and no other socket holds the
    same array. *)
Theorem buddy_memory_is_per_registered_socket clk inputs s a :
  userMemory (env (Buddy.run (boot clk) inputs)) !! s = Some a →
  is_Some (connectedUsers (env (Buddy.run (boot clk) inputs)) !! s)
  ∧ is_Some (Buddy.context (env (Buddy.run (boot clk) inputs)) s)
  ∧ ∀ s', userMemory (env (Buddy.run (boot clk) inputs)) !! s' = Some a → s' = s.
Proof.
  intros Hs.
  destruct (memory_inv_run inputs _ (memory_inv_boot clk)) as [Hreg Hwf Hsep _ _].
  split; [eauto|]. split.
  - unfold Buddy.context. rewrite Hs. simpl. eauto.
  - intros s' Hs'. eauto.
Qed.

Lemma buddy_memory_is_per_registered_socket_witness :
  userMemory (env (Buddy.run (boot example_clock) alice_gets_reply)) !! "sockA" = Some 0
  ∧ is_Some (connectedUsers (env (Buddy.run (boot example_clock) alice_gets_reply))
               !! "sockA")
  ∧ is_Some (Buddy.context (env (Buddy.run (boot example_clock) alice_gets_reply))
               "sockA").
Proof.
  split; [vm_compute; reflexivity|].
  destruct (buddy_memory_is_per_registered_socket example_clock alice_gets_reply
              "sockA" 0 ltac:(vm_compute; reflexivity)) as (H1 & H2 & _).
  by split.
Defined.

(** X2.  In every run of the Buddy server, the rolling memory of a socket
    is changed only by that socket's own events and by the replies to its
    own messages: any other turn of the event loop leaves it as it is. *)
Theorem buddy_context_changes_only_through_its_socket clk inputs i B :
  concerns (Buddy.run (boot clk) inputs) i ≠ Some B →
  Buddy.context (env (Buddy.step (Buddy.run (boot clk) inputs) i)) B
  = Buddy.context (env (Buddy.run (boot clk) inputs)) B.
Proof.
  apply memory_inv_isolation, memory_inv_run, memory_inv_boot.
Qed.

Lemma buddy_context_changes_only_through_its_socket_witness :
  concerns (Buddy.run (boot example_clock) alice_gets_reply)
    (FromSocket "sockB" (In_message (mkMessageData "yo" "Bob"))) ≠ Some "sockA"
  ∧ Buddy.context
      (env (Buddy.step (Buddy.run (boot example_clock) alice_gets_reply)
              (FromSocket "sockB" (In_message (mkMessageData "yo" "Bob")))))
      "sockA"
    = Buddy.context (env (Buddy.run (boot example_clock) alice_gets_reply)) "sockA".
Proof.
  split; [by intros [=]|].
  apply (buddy_context_changes_only_through_its_socket example_clock alice_gets_reply
           (FromSocket "sockB" (In_message (mkMessageData "yo" "Bob"))) "sockA").
  by intros [=].
Defined.

(** X3.  In every run of either server, [user_joined], [user_left] and
    [user_typing] are emitted to the other sockets only, [user_message],
    [ai_message] and [user_count] to all sockets, and [error] to a single
    socket. *)
Theorem events_are_addressed_by_their_kind v clk inputs :
  Forall (λ x, addressed_as_expected x.2 = true) (trace_of v clk inputs).
Proof. apply trace_well_addressed. Qed.


(** X5.  After every run, [GET /health] and [GET /api/users] report the
    number carried by the last [user_count] that was broadcast (zero if
    there was none), and [/api/users] lists the name and join time of
    exactly the registered participants. *)
Theorem health_and_users_report_the_last_user_count v clk inputs :
  let e := env_of v clk inputs in
  let shown := default 0 (last (counts (trace_of v clk inputs).*2.*2)) in
  h_connectedUsers (result (health e)) = shown
  ∧ (api_users e).2 = shown
  ∧ length (api_users e).1 = shown
  ∧ ∀ u t, (u, t) ∈ (api_users e).1
           ↔ ∃ s, connectedUsers e !! s = Some (mkParticipant u t).
Proof.
  cbv zeta. rewrite last_count_is_registry_size.
  set (e := env_of v clk inputs).
  assert (length (api_users e).1 = size (connectedUsers e)) as Hlen.
  { unfold api_users. simpl. by rewrite !length_fmap, length_map_to_list. }
  repeat split; try done.
  - intros Hin. unfold api_users in Hin. simpl in Hin.
    apply list_elem_of_fmap in Hin as ([u' t'] & [= -> ->] & Hin).
    apply list_elem_of_fmap in Hin as ([s p] & -> & Hin).
    apply elem_of_map_to_list in Hin. eauto.
  - intros [s Hs]. unfold api_users. simpl.
    apply list_elem_of_fmap. exists (mkParticipant u t). split; [done|].
    apply list_elem_of_fmap. exists (s, mkParticipant u t). split; [done|].
    by apply elem_of_map_to_list.
Qed.

(** X6.  A socket that was not registered and joins, then disconnects,
    leaves the registry as it was (and the Buddy server's memory map
    without an entry for it); everyone is told one more participant, then
    the number there was before, and the name that left is the name that
    joined. *)
Theorem join_then_disconnect_restores_the_registry socket_id userData e :
  connectedUsers e !! socket_id = None →
  let j := on_user_join socket_id userData e in
  let db := Buddy.on_disconnect socket_id (state_of j) in
  let dp := Plain.on_disconnect socket_id (state_of j) in
  connectedUsers (state_of db) = connectedUsers e
  ∧ userMemory (state_of db) = delete socket_id (userMemory e)
  ∧ connectedUsers (state_of dp) = connectedUsers e
  ∧ userMemory (state_of dp) = userMemory e
  ∧ counts (emitted j).*2 = [S (size (connectedUsers e))]
  ∧ counts (emitted db).*2 = [size (connectedUsers e)]
  ∧ emitted db = emitted dp
  ∧ head (emitted db) =
      Some (ToOthers socket_id,
            user_left (ud_username userData)
              (ud_username userData +:+ " left the chat")
              (toISOString (clock e (S (S (ticks e)))))).
Proof.
  intros H. cbv zeta.
  rewrite buddy_on_disconnect_eq, plain_on_disconnect_eq, on_user_join_eq.
  unfold state_of, emitted. simpl. rewrite lookup_insert_eq. simpl.
  rewrite delete_insert_eq, (delete_id (connectedUsers e)) by done.
  rewrite map_size_insert_None by done.
  done.
Qed.

Lemma join_then_disconnect_restores_the_registry_witness :
  connectedUsers (initial example_clock) !! "sockA" = None
  ∧ connectedUsers
      (state_of (Buddy.on_disconnect "sockA"
                   (state_of (on_user_join "sockA" (mkUserData "Alice")
                                (initial example_clock)))))
    = connectedUsers (initial example_clock).
Proof.
  split; [reflexivity|].
  destruct (join_then_disconnect_restores_the_registry "sockA" (mkUserData "Alice")
              (initial example_clock) eq_refl) as (H & _).
  exact H.
Defined.

(** X7.  A [user_join] of a socket that is registered already replaces its
    participant and tells the others that the new name joined, but the
    registry keeps its size, which is the count that is broadcast, and the
    socket keeps its rolling memory. *)
Theorem second_join_renames_without_counting socket_id userData e u :
  connectedUsers e !! socket_id = Some u →
  let j := on_user_join socket_id userData e in
  size (connectedUsers (state_of j)) = size (connectedUsers e)
  ∧ username <$> connectedUsers (state_of j) !! socket_id = Some (ud_username userData)
  ∧ emitted j =
      [(ToOthers socket_id,
        user_joined (ud_username userData)
          (ud_username userData +:+ " joined the chat")
          (toISOString (clock e (S (ticks e)))));
       (ToAll, user_count (size (connectedUsers e)))]
  ∧ Buddy.context (state_of j) socket_id = Buddy.context e socket_id.
Proof.
  intros H. cbv zeta. rewrite on_user_join_eq. unfold state_of, emitted. simpl.
  rewrite lookup_insert_eq, map_size_insert_Some by eauto. done.
Qed.

Lemma second_join_renames_without_counting_witness :
  connectedUsers alice_joined !! "sockA"
    = Some (mkParticipant "Alice" (example_clock 0))
  ∧ size (connectedUsers
            (state_of (on_user_join "sockA" (mkUserData "Alicia") alice_joined)))
    = size (connectedUsers alice_joined).
Proof.
  split; [reflexivity|].
  destruct (second_join_renames_without_counting "sockA" (mkUserData "Alicia")
              alice_joined (mkParticipant "Alice" (example_clock 0)) eq_refl)
    as (H & _).
  exact H.
Defined.

(** X8.  Disconnecting is idempotent: whatever the state, a second
    [disconnect] of the same socket emits nothing and changes nothing. *)
Theorem second_disconnect_does_nothing socket_id e :
  Buddy.on_disconnect socket_id (state_of (Buddy.on_disconnect socket_id e))
    = (tt, state_of (Buddy.on_disconnect socket_id e), [])
  ∧ Plain.on_disconnect socket_id (state_of (Plain.on_disconnect socket_id e))
    = (tt, state_of (Plain.on_disconnect socket_id e), []).
Proof.
  split.
  - rewrite (buddy_on_disconnect_eq _ (state_of _)).
    rewrite (buddy_on_disconnect_eq _ e).
    destruct (connectedUsers e !! socket_id) eqn:H; unfold state_of; simpl.
    + by rewrite lookup_delete_eq.
    + by rewrite H.
  - rewrite (plain_on_disconnect_eq _ (state_of _)).
    rewrite (plain_on_disconnect_eq _ e).
    destruct (connectedUsers e !! socket_id) eqn:H; unfold state_of; simpl.
    + by rewrite lookup_delete_eq.
    + by rewrite H.
Qed.

(** X9.  The rolling memory does not outlive the connection: in every run
    of the Buddy server, once a registered socket disconnects it has no
    memory, and if the same socket id joins again its first message starts
    a memory of that one turn. *)
Theorem buddy_memory_ends_with_the_connection clk inputs socket_id u userData d :
  let e := env (Buddy.run (boot clk) inputs) in
  connectedUsers e !! socket_id = Some u →
  let e1 := state_of (Buddy.on_disconnect socket_id e) in
  let e2 := state_of (on_user_join socket_id userData e1) in
  let e3 := state_of (Buddy.on_message socket_id d e2) in
  Buddy.context e1 socket_id = None
  ∧ Buddy.context e2 socket_id = None
  ∧ Buddy.context e3 socket_id = Some [mkTurn role_user (md_message d)].
Proof.
  intros e Hu e1 e2 e3.
  destruct (memory_inv_run inputs _ (memory_inv_boot clk)) as [_ Hwf _ _ _].
  fold e in Hwf.
  assert (He1 : e1 = mkEnv (delete socket_id (connectedUsers e))
                       (delete socket_id (userMemory e))
                       (arrays e) (clock e) (S (ticks e))).
  { subst e1. by rewrite buddy_on_disconnect_eq, Hu. }
  assert (He2 : e2 = mkEnv
            (<[socket_id := mkParticipant (ud_username userData) (clock e1 (ticks e1))]>
               (connectedUsers e1))
            (userMemory e1) (arrays e1) (clock e1) (S (S (ticks e1)))).
  { subst e2. by rewrite on_user_join_eq. }
  assert (Hn1 : Buddy.context e1 socket_id = None).
  { rewrite He1. unfold Buddy.context. simpl. by rewrite lookup_delete_eq. }
  assert (Hn2 : Buddy.context e2 socket_id = None).
  { rewrite He2. unfold Buddy.context in *. by simpl. }
  assert (Hwf2 : wf e2).
  { rewrite He2, He1. unfold wf. simpl.
    intros s a [_ Hs]%lookup_delete_Some. by apply (Hwf s). }
  assert (Hu2 : connectedUsers e2 !! socket_id
                = Some (mkParticipant (ud_username userData) (clock e1 (ticks e1)))).
  { rewrite He2. simpl. by rewrite lookup_insert_eq. }
  destruct (buddy_on_message_registered socket_id d e2 _ Hu2 Hwf2)
    as (k & e3' & Heq & _ & _ & _ & _ & _ & _ & Hctx & _).
  repeat split; try done.
  subst e3. rewrite Heq. unfold state_of. simpl. by rewrite Hctx, Hn2.
Qed.

Lemma buddy_memory_ends_with_the_connection_witness :
  connectedUsers (env (Buddy.run (boot example_clock) alice_gets_reply)) !! "sockA"
    = Some (mkParticipant "Alice" (example_clock 0))
  ∧ Buddy.context
      (state_of (Buddy.on_disconnect "sockA"
                   (env (Buddy.run (boot example_clock) alice_gets_reply))))
      "sockA" = None.
Proof.
  split; [vm_compute; reflexivity|].
  destruct (buddy_memory_ends_with_the_connection example_clock alice_gets_reply
              "sockA" (mkParticipant "Alice" (example_clock 0))
              (mkUserData "Alice") (mkMessageData "again" "Alice")
              ltac:(vm_compute; reflexivity)) as (H & _).
  exact H.
Defined.

(** X10.  When a socket joins and sends its messages one after the other,
    some of the generation calls failing, its memory never holds more
    than ten entries plus one for each call that succeeded. *)
Theorem buddy_context_is_bounded_by_the_successes clk socket_id u xs :
  length (default []
    (Buddy.context
       (env (Buddy.run (boot clk)
               (FromSocket socket_id (In_user_join (mkUserData u))
                :: dialogue socket_id u 1 xs)))
       socket_id))
  ≤ 10 + fulfilled xs.
Proof. rewrite buddy_context_after_dialogue. apply length_fold_roll_with. Qed.

(** X11.  When every generation call fails, the cap holds: the memory is
    the user turns of the last ten messages, in order. *)
Theorem buddy_context_keeps_the_last_ten_when_calls_fail clk socket_id u ms :
  let h := default []
    (Buddy.context
       (env (Buddy.run (boot clk)
               (FromSocket socket_id (In_user_join (mkUserData u))
                :: dialogue socket_id u 1 ((λ m, (m, Rejected)) <$> ms))))
       socket_id) in
  h = drop (length ms - 10) (mkTurn role_user <$> ms)
  ∧ length h = length ms `min` 10.
Proof.
  cbv zeta. rewrite buddy_context_after_dialogue, fold_roll_with_rejected.
  split; [done|]. rewrite length_drop, length_fmap. lia.
Qed.

Lemma buddy_on_message_reuses_the_array socket_id d e u b :
  connectedUsers e !! socket_id = Some u →
  userMemory e !! socket_id = Some b →
  Buddy.k_chatHistory <$> result (Buddy.on_message socket_id d e) = Some b
  ∧ userMemory (state_of (Buddy.on_message socket_id d e)) = userMemory e.
Proof.
  intros Hu Hb. rewrite (buddy_on_message_state' _ d _ _ Hu), Hb. done.
Qed.

(** X12.  Two messages of one socket that are both awaiting their reply
    share the socket's array: both user turns are appended (and capped) as
    the messages arrive, and the replies are appended in the order in which
    the calls settle, here the second before the first. *)
Theorem buddy_replies_are_appended_as_they_settle clk inputs socket_id u d1 d2 a1 a2 :
  let w := Buddy.run (boot clk) inputs in
  connectedUsers (env w) !! socket_id = Some u →
  Buddy.context
    (env (Buddy.run w
            [FromSocket socket_id (In_message d1);
             FromSocket socket_id (In_message d2);
             Settles (S (arrivals w)) (Fulfilled a2);
             Settles (arrivals w) (Fulfilled a1)]))
    socket_id
  = Some (cap (cap (default [] (Buddy.context (env w) socket_id)
                      ++ [mkTurn role_user (md_message d1)])
                 ++ [mkTurn role_user (md_message d2)])
          ++ [mkTurn role_assistant a2; mkTurn role_assistant a1]).
Proof.
  intros w Hu.
  destruct (memory_inv_run inputs _ (memory_inv_boot clk)) as [_ Hwf _ _ _].
  fold w in Hwf.
  destruct (buddy_on_message_registered socket_id d1 _ _ Hu Hwf)
    as (k1 & e1 & Heq1 & Hcu1 & _ & _ & Hwf1 & _ & Hum1 & Hctx1 & _).
  assert (Hu1 : connectedUsers e1 !! socket_id = Some u) by by rewrite Hcu1.
  destruct (buddy_on_message_registered socket_id d2 _ _ Hu1 Hwf1)
    as (k2 & e2 & Heq2 & _ & _ & _ & _ & _ & Hum2 & Hctx2 & _).
  destruct (buddy_on_message_reuses_the_array socket_id d2 e1 u _ Hu1 Hum1)
    as [Hk2 Hsame].
  rewrite Heq2 in Hk2, Hsame. unfold result, state_of in Hk2, Hsame.
  simpl in Hk2, Hsame. injection Hk2 as Hk2.
  set (h := default [] (Buddy.context (env w) socket_id)) in *.
  rewrite Hctx1 in Hctx2. simpl in Hctx2.
  assert (Ha2 : arrays e2 !! Buddy.k_chatHistory k2
                = Some (cap (cap (h ++ [mkTurn role_user (md_message d1)])
                               ++ [mkTurn role_user (md_message d2)]))).
  { unfold Buddy.context in Hctx2. by rewrite Hum2 in Hctx2. }
  unfold Buddy.run, run. simpl. unfold dispatch. rewrite Heq1. simpl.
  rewrite Heq2. simpl. rewrite lookup_insert_eq. simpl.
  rewrite lookup_delete_ne, lookup_insert_ne, lookup_insert_eq by lia. simpl.
  unfold Buddy.context. simpl. rewrite Hum2. simpl.
  rewrite <- Hk2, !list_lookup_alter_eq, Ha2. simpl.
  by rewrite <- app_assoc.
Qed.

Lemma buddy_replies_are_appended_as_they_settle_witness :
  connectedUsers (env (Buddy.run (boot example_clock) alice_gets_reply)) !! "sockA"
    = Some (mkParticipant "Alice" (example_clock 0))
  ∧ Buddy.context
      (env (Buddy.run (Buddy.run (boot example_clock) alice_gets_reply)
              [FromSocket "sockA" (In_message (mkMessageData "one" "Alice"));
               FromSocket "sockA" (In_message (mkMessageData "two" "Alice"));
               Settles (S (arrivals (Buddy.run (boot example_clock) alice_gets_reply)))
                 (Fulfilled "re: two");
               Settles (arrivals (Buddy.run (boot example_clock) alice_gets_reply))
                 (Fulfilled "re: one")]))
      "sockA"
    = Some (cap (cap (default []
                        (Buddy.context
                           (env (Buddy.run (boot example_clock) alice_gets_reply))
                           "sockA")
                      ++ [mkTurn role_user "one"])
                 ++ [mkTurn role_user "two"])
            ++ [mkTurn role_assistant "re: two"; mkTurn role_assistant "re: one"]).
Proof.
  split; [vm_compute; reflexivity|].
  apply (buddy_replies_are_appended_as_they_settle example_clock alice_gets_reply
           "sockA" (mkParticipant "Alice" (example_clock 0))
           (mkMessageData "one" "Alice") (mkMessageData "two" "Alice")
           "re: one" "re: two").
  vm_compute. reflexivity.
Defined.









